(** * cpp-ethereum: the transaction envelope (libethereum/Transaction.cpp)

    A shallow embedding of [Transaction]: the decoding constructor, the
    memoised [sender] and [gasRequired], [safeSender], [sign] and
    [streamRLP], together with the properties the specification states
    about them.

    The numeric types of the C++ code are embedded as [Z] with their width
    written out: [u256], [h256] (a 32-byte [FixedHash] read as a big-endian
    number), [Address] ([h160]), [Public] ([h512]) and [byte].  The
    collaborators that the source file only calls (the elliptic-curve
    primitives, the hash, the byte layer of the RLP library) are variables
    of the section [TransactionModel]. *)

From Stdlib Require Import ZArith List Bool Lia.
From Stdlib.Strings Require String.
Import String.StringSyntax.
Delimit Scope string_scope with string.
From Stdlib.Strings Require Import Byte.
Import ListNotations.
Local Open Scope Z_scope.

(** ** Bytes and big-endian numbers (libdevcore/CommonData.h)

    libdevcore is not among the sources; what [Transaction.cpp] relies on
    is its conversion between numbers and raw byte strings. *)

Definition bytes := list byte.

Definition byte_Z (b : byte) : Z := Z.of_N (Byte.to_N b).

Definition byte_of_Z (z : Z) : byte :=
  match Byte.of_N (Z.to_N (z mod 256)) with
  | Some b => b
  | None => x00
  end.

(** Modelled from the spec: [fromBigEndian] of libdevcore, which is not
    among the sources: the bytes of a raw string read as one number, most
    significant byte first. *)
Definition fromBigEndian (bs : bytes) : Z :=
  fold_left (fun acc b => acc * 256 + byte_Z b) bs 0.

(** Modelled from the spec: [toBigEndian] of libdevcore into a buffer of
    [len] bytes (a scalar "fits its declared width"): the low [len] bytes
    of [v], most significant first. *)
Fixpoint toBigEndian (len : nat) (v : Z) : bytes :=
  match len with
  | O => []
  | S n => toBigEndian n (v / 256) ++ [byte_of_Z v]
  end.

(** Modelled from the spec: [bytesRequired] of libdevcore: how many bytes
    the number takes without leading zero bytes. *)
Definition bytesRequired (v : Z) : nat :=
  if v <=? 0 then O else Z.to_nat (Z.log2 v / 8 + 1).

(** Modelled from the spec: [toCompactBigEndian] of libdevcore: the
    big-endian bytes of a number with no leading zero byte, none at all
    for zero. *)
Definition toCompactBigEndian (v : Z) : bytes :=
  toBigEndian (bytesRequired v) v.

(** ** RLP items, writer and reader (libdevcore/RLP.h)

    The RLP library is a collaborator of [Transaction.cpp] and is embedded
    at the level of the items it reads and writes: a raw byte string or a
    list of items.  How items are laid out in bytes is left to the
    variables [RLPStream_out] and [RLP_open] of the section below. *)

#[warnings="-register-all"]
Inductive RLPItem : Type :=
| RLPData (payload : bytes)
| RLPList (items : list RLPItem).

(** [RLPStream]: the finished top-level items and the stack of lists that
    were announced with [appendList] and still wait for items (how many,
    and the items received so far). *)
Record RLPStream : Type := {
  m_out : list RLPItem;
  m_listStack : list (nat * list RLPItem)
}.

Definition RLPStream_new : RLPStream := {| m_out := []; m_listStack := [] |}.

(** Modelled from the spec: [RLPStream::noteAppended], not among the
    sources: an appended item goes into the innermost open list; a list
    that received its last item is closed and is itself appended to the
    list around it.  ([appendList] never opens a list of zero items, so no
    frame holds the count zero.) *)
Fixpoint noteAppended (stack : list (nat * list RLPItem)) (out : list RLPItem)
    (it : RLPItem) : RLPStream :=
  match stack with
  | [] => {| m_out := out ++ [it]; m_listStack := [] |}
  | (n, acc) :: rest =>
      match n with
      | O | S O => noteAppended rest out (RLPList (acc ++ [it]))
      | S n' => {| m_out := out; m_listStack := (n', acc ++ [it]) :: rest |}
      end
  end.

(** Modelled from the spec: [RLPStream::append] of one finished item:
    the item is written and noted. *)
Definition append (it : RLPItem) (_s : RLPStream) : RLPStream :=
  noteAppended (m_listStack _s) (m_out _s) it.

(** Modelled from the spec: [RLPStream::appendList(_items)]: announces a
    list of [_items] items; the empty list is complete at once. *)
Definition appendList (_items : nat) (_s : RLPStream) : RLPStream :=
  match _items with
  | O => append (RLPList []) _s
  | S _ => {| m_out := m_out _s;
              m_listStack := (_items, []) :: m_listStack _s |}
  end.

(** Modelled from the spec: the [operator<<] overloads of [RLPStream] that
    [streamRLP] uses.  A number is written as the raw string of its
    big-endian bytes without leading zeros, a fixed hash as all its bytes,
    a byte array and a string literal as they are. *)
Definition append_int (v : Z) : RLPStream -> RLPStream :=
  append (RLPData (toCompactBigEndian v)).

Definition append_hash (size : nat) (h : Z) : RLPStream -> RLPStream :=
  append (RLPData (toBigEndian size h)).

Definition append_bytes (bs : bytes) : RLPStream -> RLPStream :=
  append (RLPData bs).

(** A reader [RLP] views one item, or nothing at all (the null [RLP()]). *)
Definition RLP := option RLPItem.

(** The classes of [dev::Exception] that [Transaction.cpp] throws or
    classifies in [toTransactionException]; [OtherException] stands for
    every class that none of its casts matches. *)
Inductive ExceptionKind : Type :=
| BadRLP
| OutOfGasIntrinsic | InvalidSignature
| OutOfGasBase | InvalidNonce | NotEnoughCash | BlockGasLimitReached
| BadInstruction | BadJumpDestination | OutOfGas | OutOfStack | StackUnderflow
| OtherException.

Module RLPReader.

(** Modelled from the spec: the tests of the class [RLP], not among the
    sources: "outer structure is a list", "payload is a raw byte string",
    and the null reader that is neither. *)
Definition isNull (rlp : RLP) : bool :=
  match rlp with None => true | Some _ => false end.

Definition isList (rlp : RLP) : bool :=
  match rlp with Some (RLPList _) => true | _ => false end.

Definition isData (rlp : RLP) : bool :=
  match rlp with Some (RLPData _) => true | _ => false end.

(** Modelled from the spec: [RLP::isEmpty], "field 3 empty": a
    zero-length string or a zero-length list. *)
Definition isEmpty (rlp : RLP) : bool :=
  match rlp with
  | Some (RLPData []) | Some (RLPList []) => true
  | _ => false
  end.

(** Modelled from the spec: [RLP::isInt]: a raw string with no leading
    zero byte. *)
Definition isInt (rlp : RLP) : bool :=
  match rlp with
  | Some (RLPData []) => true
  | Some (RLPData (b :: _)) => negb (byte_Z b =? 0)
  | _ => false
  end.

(** Modelled from the spec: [RLP::itemCount], the "arity" of a list, zero
    for anything else. *)
Definition itemCount (rlp : RLP) : nat :=
  match rlp with Some (RLPList l) => length l | _ => O end.

(** Modelled from the spec: [RLP::operator[]]: the item at index [i], the
    null reader past the end. *)
Definition index (rlp : RLP) (i : nat) : RLP :=
  match rlp with Some (RLPList l) => nth_error l i | _ => None end.

(** Modelled from the spec: [RLP::toInt<T>(Strict)], not among the
    sources, for a [T] of [maxSize] bytes: "each scalar field fits its
    declared width".  A list, a null reader, a string with a leading
    zero byte and a string longer than [T] do not, and "any structural
    violation fails with MalformedEncoding", the class [BadRLP]. *)
Definition toInt (maxSize : nat) (rlp : RLP) : ExceptionKind + Z :=
  match rlp with
  | Some (RLPData p) =>
      if negb (isInt rlp) then inl BadRLP
      else if (maxSize <? length p)%nat then inl BadRLP
      else inr (fromBigEndian p)
  | _ => inl BadRLP
  end.

(** Modelled from the spec: [RLP::toHash<N>(VeryStrict)] for a hash of
    [size] bytes: a raw string of exactly that many bytes; anything else
    fails as in [toInt], with [BadRLP]. *)
Definition toHash (size : nat) (rlp : RLP) : ExceptionKind + Z :=
  match rlp with
  | Some (RLPData p) =>
      if (length p =? size)%nat then inr (fromBigEndian p) else inl BadRLP
  | _ => inl BadRLP
  end.

(** Modelled from the spec: [RLP::toBytes]: the payload of a raw string,
    no bytes otherwise. *)
Definition toBytes (rlp : RLP) : bytes :=
  match rlp with Some (RLPData p) => p | _ => [] end.

End RLPReader.

Notation "rlp .[ i ]" := (RLPReader.index rlp i) (at level 1, format "rlp .[ i ]").

(** ** Exceptions (libethcore/Exceptions.h) *)

(** A thrown [dev::Exception]: its class and the [errinfo] attached to it
    on the way out.  [BadFieldError] keeps the index of the field at
    fault; the hexadecimal dump of that field, which goes with it, is
    diagnostic text and is left out. *)
Record Exception : Type := {
  what : ExceptionKind;
  errinfo_comment : option String.string;
  errinfo_name : option String.string;
  BadFieldError : option nat;
  RequirementError : option (Z * Z)
}.

(** [K()], a freshly thrown exception of class [K]. *)
Definition exception (k : ExceptionKind) : Exception :=
  {| what := k; errinfo_comment := None; errinfo_name := None;
     BadFieldError := None; RequirementError := None |}.

(** [BadRLP() << errinfo_comment(msg)] *)
Definition BadRLP_because (msg : String.string) : Exception :=
  {| what := BadRLP; errinfo_comment := Some msg; errinfo_name := None;
     BadFieldError := None; RequirementError := None |}.

Arguments BadRLP_because msg%_string.

Module TransactionException.
Inductive t : Type :=
| None | Unknown
| BadRLP | OutOfGasIntrinsic | InvalidSignature
| InvalidNonce | NotEnoughCash | OutOfGasBase | BlockGasLimitReached
| BadInstruction | BadJumpDestination | OutOfGas | OutOfStack
| StackUnderflow.
End TransactionException.

(** [toTransactionException]: the chain of [dynamic_cast]s, on the class
    of the exception; a class that none of them matches ends in
    [Unknown]. *)
Definition toTransactionException (_e : Exception) : TransactionException.t :=
  match what _e with
  | BadRLP => TransactionException.BadRLP
  | OutOfGasIntrinsic => TransactionException.OutOfGasIntrinsic
  | InvalidSignature => TransactionException.InvalidSignature
  | OutOfGasBase => TransactionException.OutOfGasBase
  | InvalidNonce => TransactionException.InvalidNonce
  | NotEnoughCash => TransactionException.NotEnoughCash
  | BlockGasLimitReached => TransactionException.BlockGasLimitReached
  | BadInstruction => TransactionException.BadInstruction
  | BadJumpDestination => TransactionException.BadJumpDestination
  | OutOfGas => TransactionException.OutOfGas
  | OutOfStack => TransactionException.OutOfStack
  | StackUnderflow => TransactionException.StackUnderflow
  | OtherException => TransactionException.Unknown
  end.

(** ** The transaction record (libethereum/Transaction.h) *)

Definition u256 := Z.
Definition h256 := Z.
Definition Address := Z.
Definition Public := Z.
Definition Secret := Z.
Definition bigint := Z.

Definition ZeroAddress : Address := 0.

(** [!h] on a [FixedHash], as in [!m_sender], [!p] and [!m_gasRequired]:
    every byte is zero. *)
Definition isZero (h : Z) : bool := h =? 0.

(** Modelled from the spec: [right160] of libdevcore: the last 20 bytes
    of a 32-byte hash. *)
Definition right160 (h : h256) : Address := h mod 2 ^ 160.

Module SignatureStruct.
Record t : Type := { r : h256; s : h256; v : Z }.
End SignatureStruct.

Inductive Type_ : Type := NullTransaction | ContractCreation | MessageCall.

Module CheckTransaction.
Inductive t : Type := None | Cheap | Everything.

(** [_checkSig >= CheckTransaction::Cheap] *)
Definition ge_Cheap (c : t) : bool :=
  match c with None => false | Cheap | Everything => true end.

Definition is_Everything (c : t) : bool :=
  match c with Everything => true | _ => false end.
End CheckTransaction.

(** [IncludeSignature]: [WithoutSignature = 0], [WithSignature = 1]. *)
Definition IncludeSignature := bool.
Definition WithoutSignature : IncludeSignature := false.
Definition WithSignature : IncludeSignature := true.

Record Transaction : Type := {
  m_type : Type_;
  m_nonce : u256;
  m_value : u256;
  m_receiveAddress : Address;
  m_gasPrice : u256;
  m_gas : u256;
  m_data : bytes;
  m_vrs : SignatureStruct.t;
  m_sender : Address;        (* mutable: zero until recovered *)
  m_gasRequired : bigint     (* mutable: zero until computed *)
}.

Definition zeroSignature : SignatureStruct.t :=
  {| SignatureStruct.r := 0; SignatureStruct.s := 0; SignatureStruct.v := 0 |}.

(** [Transaction() {}]: the null transaction. *)
Definition Transaction_null : Transaction :=
  {| m_type := NullTransaction; m_nonce := 0; m_value := 0;
     m_receiveAddress := 0; m_gasPrice := 0; m_gas := 0; m_data := [];
     m_vrs := zeroSignature; m_sender := 0; m_gasRequired := 0 |}.

Definition set_m_vrs (sig : SignatureStruct.t) (t : Transaction) : Transaction :=
  {| m_type := m_type t; m_nonce := m_nonce t; m_value := m_value t;
     m_receiveAddress := m_receiveAddress t; m_gasPrice := m_gasPrice t;
     m_gas := m_gas t; m_data := m_data t;
     m_vrs := sig; m_sender := m_sender t; m_gasRequired := m_gasRequired t |}.

Definition set_m_sender (a : Address) (t : Transaction) : Transaction :=
  {| m_type := m_type t; m_nonce := m_nonce t; m_value := m_value t;
     m_receiveAddress := m_receiveAddress t; m_gasPrice := m_gasPrice t;
     m_gas := m_gas t; m_data := m_data t;
     m_vrs := m_vrs t; m_sender := a; m_gasRequired := m_gasRequired t |}.

Definition set_m_gasRequired (g : bigint) (t : Transaction) : Transaction :=
  {| m_type := m_type t; m_nonce := m_nonce t; m_value := m_value t;
     m_receiveAddress := m_receiveAddress t; m_gasPrice := m_gasPrice t;
     m_gas := m_gas t; m_data := m_data t;
     m_vrs := m_vrs t; m_sender := m_sender t; m_gasRequired := g |}.

(** ** Methods as computations

    A method runs on the object it is called on and on the trace of the
    calls made to the outside: each signature recovery and each warning
    written to the log.  It returns a value or throws, and leaves the
    object (its [mutable] members) and the trace behind. *)

Inductive Event : Type :=
| EvRecover (sig : SignatureStruct.t) (hash : h256)
| EvWarn.

Record World : Type := { self : Transaction; trace : list Event }.

Definition M (A : Type) : Type := World -> (Exception + A) * World.

Definition ret {A : Type} (a : A) : M A := fun w => (inr a, w).

Definition bind {A B : Type} (c : M A) (k : A -> M B) : M B :=
  fun w => match c w with
           | (inl e, w') => (inl e, w')
           | (inr a, w') => k a w'
           end.

Definition throw {A : Type} (e : Exception) : M A := fun w => (inl e, w).

(** [try { c } catch (...) { h }] *)
Definition try_catch {A : Type} (c : M A) (h : Exception -> M A) : M A :=
  fun w => match c w with
           | (inl e, w') => h e w'
           | (inr a, w') => (inr a, w')
           end.

Definition this : M Transaction := fun w => (inr (self w), w).

Definition assign (f : Transaction -> Transaction) : M unit :=
  fun w => (inr tt, {| self := f (self w); trace := trace w |}).

Definition emit (ev : Event) : M unit :=
  fun w => (inr tt, {| self := self w; trace := trace w ++ [ev] |}).

Declare Scope method_scope.
Delimit Scope method_scope with method.
Notation "x <- c ;; k" := (bind c (fun x => k))
  (at level 100, c at next level, right associativity) : method_scope.
Notation "c ;;; k" := (bind c (fun _ => k))
  (at level 100, right associativity) : method_scope.

(** The body of the constructor's [try] block returns a value or the
    thrown exception together with the value the local [field] has at the
    [throw], which is what the handler reads. *)
Definition Try (A : Type) : Type := ((nat * Exception) + A)%type.

Definition at_field {A : Type} (field : nat) (x : ExceptionKind + A) : Try A :=
  match x with
  | inl k => inl (field, exception k)
  | inr a => inr a
  end.

Notation "x <~ c ;; k" :=
  (match c with inl e => inl e | inr x => k end)
  (at level 100, c at next level, right associativity).

(** ** The specification's side

    What the specification says about the layout and about the decoded
    fields, to state the properties against the code. *)

(** The layout of a transaction on the wire in the specification's words:
    the six items "nonce, gasPrice, gas, recipient-or-empty, value, data",
    and the three items of the signature, "v plus 27, r, and s". *)
Definition recipient_or_empty (t : Transaction) : RLPItem :=
  match m_type t with
  | MessageCall => RLPData (toBigEndian 20 (m_receiveAddress t))
  | _ => RLPData []
  end.

Definition unsigned_items (t : Transaction) : list RLPItem :=
  [RLPData (toCompactBigEndian (m_nonce t));
   RLPData (toCompactBigEndian (m_gasPrice t));
   RLPData (toCompactBigEndian (m_gas t));
   recipient_or_empty t;
   RLPData (toCompactBigEndian (m_value t));
   RLPData (m_data t)].

Definition signature_items (t : Transaction) : list RLPItem :=
  [RLPData (toCompactBigEndian (SignatureStruct.v (m_vrs t) + 27));
   RLPData (toCompactBigEndian (SignatureStruct.r (m_vrs t)));
   RLPData (toCompactBigEndian (SignatureStruct.s (m_vrs t)))].

(** What the specification says of a decoded transaction, field by field:
    "field-by-field decode (nonce, gasPrice, gas, type/recipient, value,
    data, v, r, s)", "field 3 empty => ContractCreation, else MessageCall
    with recipient address", and [v] taken from the wire with 27
    subtracted in byte arithmetic. *)
Record decoded_from (rlp : RLP) (t : Transaction) : Prop := {
  df_list : RLPReader.isList rlp = true;
  df_nonce : RLPReader.toInt 32 rlp.[0] = inr (m_nonce t);
  df_gasPrice : RLPReader.toInt 32 rlp.[1] = inr (m_gasPrice t);
  df_gas : RLPReader.toInt 32 rlp.[2] = inr (m_gas t);
  df_to :
    if RLPReader.isEmpty rlp.[3]
    then m_type t = ContractCreation /\ m_receiveAddress t = 0
    else m_type t = MessageCall
         /\ RLPReader.toHash 20 rlp.[3] = inr (m_receiveAddress t);
  df_value : RLPReader.toInt 32 rlp.[4] = inr (m_value t);
  df_isData : RLPReader.isData rlp.[5] = true;
  df_data : m_data t = RLPReader.toBytes rlp.[5];
  df_v : exists v_wire : Z,
      RLPReader.toInt 1 rlp.[6] = inr v_wire
      /\ SignatureStruct.v (m_vrs t) = (v_wire - 27) mod 256;
  df_r : RLPReader.toInt 32 rlp.[7] = inr (SignatureStruct.r (m_vrs t));
  df_s : RLPReader.toInt 32 rlp.[8] = inr (SignatureStruct.s (m_vrs t));
  df_count : (RLPReader.itemCount rlp <= 9)%nat
}.

(** The conversion the constructor applies to field [i] succeeds. *)
Definition is_ok {E A : Type} (x : E + A) : bool :=
  match x with inl _ => false | inr _ => true end.

Definition field_converts (rlp : RLP) (i : nat) : bool :=
  match i with
  | 3%nat => RLPReader.isEmpty rlp.[3] || is_ok (RLPReader.toHash 20 rlp.[3])
  | 5%nat => RLPReader.isData rlp.[5]
  | 6%nat => is_ok (RLPReader.toInt 1 rlp.[6])
  | _ => is_ok (RLPReader.toInt 32 (RLPReader.index rlp i))
  end.

(** The fields before field [n] all convert. *)
Definition fields_convert (rlp : RLP) (n : nat) : bool :=
  forallb (field_converts rlp) (seq 0 n).

(** The members hold values of their C++ types. *)
Record Transaction_wf (t : Transaction) : Prop := {
  wf_nonce : 0 <= m_nonce t < 2 ^ 256;
  wf_gasPrice : 0 <= m_gasPrice t < 2 ^ 256;
  wf_gas : 0 <= m_gas t < 2 ^ 256;
  wf_value : 0 <= m_value t < 2 ^ 256;
  wf_receiveAddress : 0 <= m_receiveAddress t < 2 ^ 160
}.

(** A signature with [r] and [s] of 32 bytes and [v] in {0,1}. *)
Record Signature_wf (sig : SignatureStruct.t) : Prop := {
  wf_r : 0 <= SignatureStruct.r sig < 2 ^ 256;
  wf_s : 0 <= SignatureStruct.s sig < 2 ^ 256;
  wf_v : 0 <= SignatureStruct.v sig <= 1
}.

(** Two objects carry the same message: they agree on every member but
    the two caches. *)
Definition same_message (t t' : Transaction) : Prop :=
  m_type t' = m_type t /\ m_nonce t' = m_nonce t /\ m_value t' = m_value t
  /\ m_receiveAddress t' = m_receiveAddress t
  /\ m_gasPrice t' = m_gasPrice t /\ m_gas t' = m_gas t
  /\ m_data t' = m_data t /\ m_vrs t' = m_vrs t.

(** The object a receiver builds from the nine items that [t] writes:
    the message of [t], the recipient only when [t] is a call, and both
    caches empty. *)
Definition as_received (t : Transaction) : Transaction :=
  {| m_type := m_type t; m_nonce := m_nonce t; m_value := m_value t;
     m_receiveAddress := match m_type t with
                         | MessageCall => m_receiveAddress t
                         | _ => 0
                         end;
     m_gasPrice := m_gasPrice t; m_gas := m_gas t; m_data := m_data t;
     m_vrs := m_vrs t; m_sender := 0; m_gasRequired := 0 |}.

(** ** Several transactions in one list

    The callers of [streamRLP] write transactions into a list that they
    have announced with [appendList]; these are the words for it. *)

(** [m_type != NullTransaction] *)
Definition is_live (t : Transaction) : bool :=
  match m_type t with NullTransaction => false | _ => true end.

(** The list that a live transaction writes. *)
Definition wire_item (_sig : IncludeSignature) (t : Transaction) : RLPItem :=
  RLPList (if _sig then unsigned_items t ++ signature_items t
           else unsigned_items t).


(** ** Printing a [TransactionException] (Transaction.cpp, lines 74 to 94) *)

(** The text of each [case] of the [switch]; [Unknown] takes the
    [default]. *)
Definition TransactionException_name (_er : TransactionException.t)
    : String.string :=
  match _er with
  | TransactionException.None => "None"
  | TransactionException.BadRLP => "BadRLP"
  | TransactionException.OutOfGasIntrinsic => "OutOfGasIntrinsic"
  | TransactionException.InvalidSignature => "InvalidSignature"
  | TransactionException.InvalidNonce => "InvalidNonce"
  | TransactionException.NotEnoughCash => "NotEnoughCash"
  | TransactionException.OutOfGasBase => "OutOfGasBase"
  | TransactionException.BlockGasLimitReached => "BlockGasLimitReached"
  | TransactionException.BadInstruction => "BadInstruction"
  | TransactionException.BadJumpDestination => "BadJumpDestination"
  | TransactionException.OutOfGas => "OutOfGas"
  | TransactionException.OutOfStack => "OutOfStack"
  | TransactionException.StackUnderflow => "StackUnderflow"
  | TransactionException.Unknown => "Unknown"
  end%string.

(** [operator<<(std::ostream&, TransactionException const&)]: the stream
    is the text written to it so far. *)
Definition print_TransactionException (_out : String.string)
    (_er : TransactionException.t) : String.string :=
  String.append _out (TransactionException_name _er).

(** ** The listener of the test [topic] (whisperTopic.cpp, lines 54 to 77)

    The listener thread polls its watch and adds up the payloads it has
    not seen before.  The host, the watch and the envelopes are not among
    the sources: what the listener is handed is a variable here, the
    payload numbers [RLP(msg.payload()).toInt<unsigned>()] of the
    messages that the poll number [iterout] returns. *)

Module WhisperTopicTest.

(** [unsigned] to [int] ([last] is an [int]) and back. *)
Definition to_int (u : Z) : Z := if u <? 2 ^ 31 then u else u - 2 ^ 32.
Definition to_unsigned (i : Z) : Z := i mod 2 ^ 32.

(** The variables of the lambda: [result] (an [unsigned]), [last] and the
    set [received], kept as the list of its elements. *)
Record Listener : Type := {
  result : Z;
  last : Z;
  received : list Z
}.

Definition start : Listener := {| result := 0; last := 0; received := [] |}.

(** The body of the inner loop, lines 66 to 72. *)
Definition on_message (st : Listener) (payload : Z) : Listener :=
  let last' := to_int payload in
  if existsb (Z.eqb (to_unsigned last')) (received st)
  then {| result := result st; last := last'; received := received st |}
  else {| result := (result st + to_unsigned last') mod 2 ^ 32;
          last := last';
          received := to_unsigned last' :: received st |}.

(** The outer loop, line 62: [rounds] polls are left of the 200, and the
    next poll is number [iterout]. *)
Fixpoint listen (watch : nat -> list Z) (rounds iterout : nat)
    (st : Listener) : Listener :=
  match rounds with
  | O => st
  | S rounds' =>
      if last st <? 81
      then listen watch rounds' (S iterout)
             (fold_left on_message (watch iterout) st)
      else st
  end.

Definition listener (watch : nat -> list Z) : Listener :=
  listen watch 200 0 start.

(** The payloads of the polls [from], ..., [from + count - 1]. *)
Definition delivered (watch : nat -> list Z) (from count : nat) : list Z :=
  flat_map watch (seq from count).

(** The sum of the numbers of a list. *)
Definition sum (l : list Z) : Z := fold_right Z.add 0 l.

(** What the listener keeps between two messages. *)
Definition listener_inv (st : Listener) : Prop :=
  NoDup (received st) /\
  result st = sum (received st) mod 2 ^ 32 /\
  Forall (fun x => 0 <= x < 2 ^ 32) (received st).

(** The payloads of line 104, whose sum the test requires. *)
Definition odd_squares : list Z := [1; 9; 25; 49; 81].

End WhisperTopicTest.


(** ** The listeners of the tests [forwarding] and [asyncforwarding]
    (whisperTopic.cpp, lines 134 to 144 and 282 to 292)

    The two loops are the same: each message overwrites [result], and the
    polling ends when [result] is not zero.  The watch is a variable as
    above. *)

Module WhisperForwardingTest.

(** The body of the inner loop: [result = last]. *)
Definition on_message (result payload : Z) : Z := payload.

(** [for (int i = 0; i < 200 && !result; ++i)]. *)
Fixpoint listen (watch : nat -> list Z) (rounds i : nat) (result : Z) : Z :=
  match rounds with
  | O => result
  | S rounds' =>
      if result =? 0
      then listen watch rounds' (S i) (fold_left on_message (watch i) result)
      else result
  end.

Definition listener (watch : nat -> list Z) : Z := listen watch 200 0 0.

End WhisperForwardingTest.


(** ** A bench instance of the collaborators

    One concrete choice of what [Transaction.cpp] takes from outside, to
    run the embedding on: the RLP byte layout, a toy hash and a toy
    signature scheme over the real validity rule.  The properties below
    are proved for every choice; the bench only serves to evaluate them. *)

Module Sample.

(** The prefix of an item of [len] payload bytes: [short + len] below 56
    bytes, else [short + 55 + n] followed by the [n] bytes of [len]. *)
Definition header (short : Z) (len : nat) : bytes :=
  if (len <? 56)%nat then [byte_of_Z (short + Z.of_nat len)]
  else
    let l := toCompactBigEndian (Z.of_nat len) in
    byte_of_Z (short + 55 + Z.of_nat (length l)) :: l.

Fixpoint encode (it : RLPItem) : bytes :=
  match it with
  | RLPData p =>
      match p with
      | [b] => if byte_Z b <? 128 then [b] else header 128 1 ++ p
      | _ => header 128 (length p) ++ p
      end
  | RLPList l =>
      let payload := flat_map encode l in
      header 192 (length payload) ++ payload
  end.

Definition RLPStream_out (_s : RLPStream) : bytes := flat_map encode (m_out _s).

(** The items laid out in [bs], one after the other. *)
Fixpoint decode_items (fuel : nat) (bs : bytes) : option (list RLPItem) :=
  match fuel with
  | O => None
  | S fuel' =>
      match bs with
      | [] => Some []
      | b :: rest =>
          let n := byte_Z b in
          let item (is_list : bool) (len : nat) (from : bytes) :=
            if (length from <? len)%nat then None
            else
              match (if is_list
                     then option_map RLPList (decode_items fuel' (firstn len from))
                     else Some (RLPData (firstn len from))),
                    decode_items fuel' (skipn len from) with
              | Some it, Some its => Some (it :: its)
              | _, _ => None
              end in
          let long (is_list : bool) (ll : nat) :=
            if (length rest <? ll)%nat then None
            else item is_list (Z.to_nat (fromBigEndian (firstn ll rest)))
                      (skipn ll rest) in
          if n <? 128 then option_map (cons (RLPData [b])) (decode_items fuel' rest)
          else if n <? 184 then item false (Z.to_nat (n - 128)) rest
          else if n <? 192 then long false (Z.to_nat (n - 183))
          else if n <? 248 then item true (Z.to_nat (n - 192)) rest
          else long true (Z.to_nat (n - 247))
      end
  end.

(** [RLP(bytes)]: no bytes give the null reader, one item gives its
    reader, and bytes that are not one item are refused as a structural
    violation. *)
Definition RLP_open (bs : bytes) : ExceptionKind + RLP :=
  match bs with
  | [] => inr None
  | _ =>
      match decode_items (S (length bs)) bs with
      | Some [it] => inr (Some it)
      | _ => inl BadRLP
      end
  end.

Definition sha3 (bs : bytes) : h256 :=
  (fromBigEndian bs * 31 + Z.of_nat (length bs) + 7) mod 2 ^ 256.

(** The order of the group of secp256k1. *)
Definition secp256k1n : Z :=
  0xFFFFFFFFFFFFFFFFFFFFFFFFFFFFFFFEBAAEDCE6AF48A03BBFD25E8CD0364141.

(** "r,s in range, v in {0,1}" *)
Definition isValid (sig : SignatureStruct.t) : bool :=
  (SignatureStruct.v sig <=? 1)
  && (0 <? SignatureStruct.r sig) && (SignatureStruct.r sig <? secp256k1n)
  && (0 <? SignatureStruct.s sig) && (SignatureStruct.s sig <? secp256k1n).

Definition toPublic (k : Secret) : Public := 2 * k + 1.

Definition seal (k : Z) (h : h256) : Z := (k + h) mod (secp256k1n - 1) + 1.

Definition dev_sign (k : Secret) (h : h256) : SignatureStruct.t :=
  {| SignatureStruct.r := k; SignatureStruct.s := seal k h;
     SignatureStruct.v := 0 |}.

Definition recover (sig : SignatureStruct.t) (h : h256) : Public :=
  if isValid sig
     && (SignatureStruct.s sig =? seal (SignatureStruct.r sig) h)
  then toPublic (SignatureStruct.r sig)
  else 0.

Definition gasRequired_of (data : bytes) : bigint :=
  fold_left (fun g b => g + (if byte_Z b =? 0 then 4 else 68)) data 21000.

(** A call of 1000 wei to the address 0xcafe with two bytes of data. *)
Definition call : Transaction :=
  {| m_type := MessageCall; m_nonce := 7; m_value := 1000;
     m_receiveAddress := 0xcafe; m_gasPrice := 50; m_gas := 30000;
     m_data := [x00; xff];
     m_vrs := zeroSignature; m_sender := 0; m_gasRequired := 0 |}.

(** A contract creation that offers less gas than its data costs. *)
Definition creation : Transaction :=
  {| m_type := ContractCreation; m_nonce := 0; m_value := 0;
     m_receiveAddress := 0; m_gasPrice := 1; m_gas := 100;
     m_data := [x60; x00];
     m_vrs := zeroSignature; m_sender := 0; m_gasRequired := 0 |}.

Definition key : Secret := 123456789.

(** Ten fields where the constructor reads nine, the first of them a
    list where a number is due, the sixth a list where the data is due. *)
Definition crooked : RLPItem :=
  RLPList [RLPList []; RLPData []; RLPData []; RLPData []; RLPData [];
           RLPList []; RLPData [x1b]; RLPData [x01]; RLPData [x01];
           RLPData []].

(** Nine well-formed fields with the signature byte 1 on the wire. *)
Definition low_v : RLPItem :=
  RLPList [RLPData [x07]; RLPData [x32]; RLPData [x75; x30]; RLPData [];
           RLPData []; RLPData [x60; x00]; RLPData [x01]; RLPData [x05];
           RLPData [x06]].

Fixpoint bytes_eqb (xs ys : bytes) : bool :=
  match xs, ys with
  | [], [] => true
  | x :: xs', y :: ys' => Byte.eqb x y && bytes_eqb xs' ys'
  | _, _ => false
  end.



(** A hash under which the key [p0] has the null address. *)
Definition sha3_null_at (p0 : Public) (bs : bytes) : h256 :=
  if bytes_eqb bs (toBigEndian 64 p0) then 0 else sha3 bs.

(** The bench call signed with the bench key, and its bytes on the wire. *)
Definition signed_call : Transaction :=
  set_m_vrs
    (dev_sign key
       (sha3 (RLPStream_out
                (append (RLPList (unsigned_items call)) RLPStream_new))))
    call.

Definition signed_creation : Transaction :=
  set_m_vrs
    (dev_sign key
       (sha3 (RLPStream_out
                (append (RLPList (unsigned_items creation)) RLPStream_new))))
    creation.

Definition wire (t : Transaction) : bytes :=
  RLPStream_out
    (append (RLPList (unsigned_items t ++ signature_items t)) RLPStream_new).


(** The bench call with a signature whose [s] was tampered with. *)
Definition tampered_call : Transaction :=
  set_m_vrs
    {| SignatureStruct.r := SignatureStruct.r (m_vrs signed_call);
       SignatureStruct.s := SignatureStruct.s (m_vrs signed_call) + 1;
       SignatureStruct.v := SignatureStruct.v (m_vrs signed_call) |}
    signed_call.

(** The signed bench call with an empty trace. *)
Definition w0 : World := {| self := signed_call; trace := [] |}.

(** What the fields of [low_v] decode to. *)
Definition low_v_decoded : Transaction :=
  {| m_type := ContractCreation; m_nonce := 7; m_value := 0;
     m_receiveAddress := 0; m_gasPrice := 50; m_gas := 30000;
     m_data := [x60; x00];
     m_vrs := {| SignatureStruct.r := 5; SignatureStruct.s := 6;
                 SignatureStruct.v := 230 |};
     m_sender := 0; m_gasRequired := 0 |}.

End Sample.

Section TransactionModel.

Local Open Scope method_scope.
Local Set Default Proof Using "Type".

(** The collaborators: the hash [dev::sha3], the elliptic-curve
    primitives [dev::recover] (the zero key when there is none),
    [dev::sign] and [SignatureStruct::isValid], the byte layer of the
    RLP library ([RLPStream::out] and the constructor [RLP(bytes)],
    which refuses bytes that are not one well-formed item), the static
    [Transaction::gasRequired(data)] of the header, and [dev::toPublic],
    the public key of a secret. *)
Variable sha3 : bytes -> h256.
Variable recover : SignatureStruct.t -> h256 -> Public.
Variable dev_sign : Secret -> h256 -> SignatureStruct.t.
Variable isValid : SignatureStruct.t -> bool.
Variable RLPStream_out : RLPStream -> bytes.
Variable RLP_open : bytes -> ExceptionKind + RLP.
Variable gasRequired_of : bytes -> bigint.
Variable toPublic : Secret -> Public.

(** *** [Transaction::streamRLP] *)
Definition streamRLP (t : Transaction) (_s : RLPStream)
    (_sig : IncludeSignature) : RLPStream :=
  match m_type t with
  | NullTransaction => _s
  | _ =>
      let _s := appendList ((if _sig then 3 else 0) + 6) _s in
      let _s := append_int (m_nonce t) _s in
      let _s := append_int (m_gasPrice t) _s in
      let _s := append_int (m_gas t) _s in
      let _s := match m_type t with
                | MessageCall => append_hash 20 (m_receiveAddress t) _s
                | _ => append_bytes [] _s
                end in
      let _s := append_int (m_value t) _s in
      let _s := append_bytes (m_data t) _s in
      if _sig then
        let _s := append_int (SignatureStruct.v (m_vrs t) + 27) _s in
        let _s := append_int (SignatureStruct.r (m_vrs t)) _s in
        append_int (SignatureStruct.s (m_vrs t)) _s
      else _s
  end.

(** Modelled from the spec: [Transaction::rlp] and [Transaction::sha3]
    of the header, not among the sources: the bytes of [streamRLP] into
    a fresh stream, and their hash ("used to compute the signing
    hash"). *)
Definition Transaction_rlp (t : Transaction) (_sig : IncludeSignature) : bytes :=
  RLPStream_out (streamRLP t RLPStream_new _sig).

Definition Transaction_sha3 (t : Transaction) (_sig : IncludeSignature) : h256 :=
  sha3 (Transaction_rlp t _sig).

(** The address of a public key: [right160(sha3(p))] over its 64 bytes. *)
Definition toAddress (p : Public) : Address :=
  right160 (sha3 (toBigEndian 64 p)).

(** *** [Transaction::sender] *)
Definition sender : M Address :=
  t <- this ;;
  (if isZero (m_sender t) then
     let h := Transaction_sha3 t WithoutSignature in
     emit (EvRecover (m_vrs t) h) ;;;
     let p := recover (m_vrs t) h in
     if isZero p then throw (exception InvalidSignature)
     else assign (set_m_sender (toAddress p))
   else ret tt) ;;;
  t <- this ;;
  ret (m_sender t).

(** *** [Transaction::safeSender] *)
Definition safeSender : M Address :=
  try_catch sender (fun _ => emit EvWarn ;;; ret ZeroAddress).

(** *** [Transaction::gasRequired] *)
Definition gasRequired : M bigint :=
  t <- this ;;
  (if isZero (m_gasRequired t)
   then assign (set_m_gasRequired (gasRequired_of (m_data t)))
   else ret tt) ;;;
  t <- this ;;
  ret (m_gasRequired t).

(** Modelled from the spec: [Transaction::checkPayment] of the header,
    not among the sources: the "payment sufficiency check", the gas
    supplied covers the gas required. *)
Definition checkPayment : M bool :=
  g <- gasRequired ;;
  t <- this ;;
  ret (g <=? m_gas t).

(** *** [Transaction::sign] *)
Definition sign (_priv : Secret) : M unit :=
  t <- this ;;
  let sigStruct := dev_sign _priv (Transaction_sha3 t WithoutSignature) in
  if isValid sigStruct then assign (set_m_vrs sigStruct) else ret tt.

(** *** [Transaction::Transaction(bytesConstRef, CheckTransaction)] *)

(** The field-by-field part of the [try] block, lines 102 to 123. *)
Definition decode_fields (rlp : RLP) : Try Transaction :=
  if negb (RLPReader.isList rlp)
  then inl (0%nat, BadRLP_because "transaction RLP must be a list") else
  _nonce <~ at_field 0 (RLPReader.toInt 32 rlp.[0]) ;;
  _gasPrice <~ at_field 1 (RLPReader.toInt 32 rlp.[1]) ;;
  _gas <~ at_field 2 (RLPReader.toInt 32 rlp.[2]) ;;
  let _type := if RLPReader.isEmpty rlp.[3]
               then ContractCreation else MessageCall in
  _receiveAddress <~ (if RLPReader.isEmpty rlp.[3] then inr 0
                      else at_field 3 (RLPReader.toHash 20 rlp.[3])) ;;
  _value <~ at_field 4 (RLPReader.toInt 32 rlp.[4]) ;;
  if negb (RLPReader.isData rlp.[5])
  then inl (5%nat, BadRLP_because "transaction data RLP must be an array") else
  let _data := RLPReader.toBytes rlp.[5] in
  v_wire <~ at_field 6 (RLPReader.toInt 1 rlp.[6]) ;;
  let v := (v_wire - 27) mod 256 in
  r <~ at_field 7 (RLPReader.toInt 32 rlp.[7]) ;;
  s <~ at_field 8 (RLPReader.toInt 32 rlp.[8]) ;;
  if (9 <? RLPReader.itemCount rlp)%nat
  then inl (8%nat, BadRLP_because "to many fields in the transaction RLP") else
  inr {| m_type := _type; m_nonce := _nonce; m_value := _value;
         m_receiveAddress := _receiveAddress; m_gasPrice := _gasPrice;
         m_gas := _gas; m_data := _data;
         m_vrs := {| SignatureStruct.r := r; SignatureStruct.s := s;
                     SignatureStruct.v := v |};
         m_sender := 0; m_gasRequired := 0 |}.

(** The whole [try] block: the fields, then the checks on the signature
    that [_checkSig] asks for, lines 124 to 127; [field] is still 8
    there. *)
Definition try_block (rlp : RLP) (_checkSig : CheckTransaction.t)
    (tr : list Event) : Try Transaction * list Event :=
  match decode_fields rlp with
  | inl e => (inl e, tr)
  | inr t =>
      if CheckTransaction.ge_Cheap _checkSig && negb (isValid (m_vrs t))
      then (inl (8%nat, exception InvalidSignature), tr)
      else if CheckTransaction.is_Everything _checkSig
      then match sender {| self := t; trace := tr |} with
           | (inl e, w) => (inl (8%nat, e), trace w)
           | (inr a, w) => (inr (set_m_sender a (self w)), trace w)
           end
      else (inr t, tr)
  end.

(** The handler, lines 129 to 133: it names the exception, attaches the
    field at fault and throws it again. *)
Definition handler (field : nat) (_e : Exception) : Exception :=
  {| what := what _e;
     errinfo_comment := errinfo_comment _e;
     errinfo_name := Some "invalid transaction format"%string;
     BadFieldError := Some field;
     RequirementError := RequirementError _e |}.

(** After the [try] block, lines 134 and 135. *)
Definition payment_check (_checkSig : CheckTransaction.t) : M unit :=
  paid <- (if CheckTransaction.ge_Cheap _checkSig
           then checkPayment else ret true) ;;
  if negb paid then
    required <- gasRequired ;;
    t <- this ;;
    throw {| what := OutOfGasIntrinsic; errinfo_comment := None;
             errinfo_name := None; BadFieldError := None;
             RequirementError := Some (required, m_gas t) |}
  else ret tt.

Definition Transaction_decode (_rlpData : bytes)
    (_checkSig : CheckTransaction.t) (tr : list Event)
    : (Exception + Transaction) * list Event :=
  match RLP_open _rlpData with
  | inl k => (inl (exception k), tr)
  | inr rlp =>
      match try_block rlp _checkSig tr with
      | (inl (field, e), tr') => (inl (handler field e), tr')
      | (inr t, tr') =>
          match payment_check _checkSig {| self := t; trace := tr' |} with
          | (inl e, w) => (inl e, trace w)
          | (inr _, w) => (inr (self w), trace w)
          end
      end
  end.

(** ** Big-endian numbers: what is written is read back *)

Lemma byte_Z_range (b : byte) : 0 <= byte_Z b < 256.
Proof.
  unfold byte_Z. pose proof (Byte.to_N_bounded b). lia.
Qed.

Lemma byte_Z_of_Z (z : Z) : byte_Z (byte_of_Z z) = z mod 256.
Proof.
  unfold byte_of_Z, byte_Z.
  pose proof (Z.mod_pos_bound z 256 ltac:(lia)) as Hr.
  destruct (Byte.of_N (Z.to_N (z mod 256))) as [b|] eqn:E.
  - apply Byte.to_of_N in E. rewrite E. lia.
  - apply Byte.of_N_None_iff in E. lia.
Qed.

Lemma byte_of_Z_byte_Z (b : byte) : byte_of_Z (byte_Z b) = b.
Proof.
  unfold byte_of_Z, byte_Z.
  pose proof (Byte.to_N_bounded b) as Hb.
  rewrite Z.mod_small by lia.
  rewrite N2Z.id, Byte.of_to_N. reflexivity.
Qed.

Lemma fromBigEndian_acc (ys : bytes) (a : Z) :
  fold_left (fun acc b => acc * 256 + byte_Z b) ys a
  = a * 256 ^ Z.of_nat (length ys) + fromBigEndian ys.
Proof.
  unfold fromBigEndian. revert a.
  induction ys as [|y ys IH]; intros a.
  - simpl. lia.
  - cbn [fold_left length]. rewrite IH, (IH (0 * 256 + byte_Z y)).
    rewrite Nat2Z.inj_succ, Z.pow_succ_r by lia. lia.
Qed.

Lemma fromBigEndian_app (xs ys : bytes) :
  fromBigEndian (xs ++ ys)
  = fromBigEndian xs * 256 ^ Z.of_nat (length ys) + fromBigEndian ys.
Proof.
  unfold fromBigEndian at 1. rewrite fold_left_app.
  apply fromBigEndian_acc.
Qed.

Lemma fromBigEndian_snoc (xs : bytes) (b : byte) :
  fromBigEndian (xs ++ [b]) = fromBigEndian xs * 256 + byte_Z b.
Proof.
  rewrite fromBigEndian_app. simpl length. unfold fromBigEndian at 2. simpl. lia.
Qed.

Lemma fromBigEndian_range (bs : bytes) :
  0 <= fromBigEndian bs < 256 ^ Z.of_nat (length bs).
Proof.
  induction bs as [|b bs IH] using rev_ind.
  - unfold fromBigEndian. simpl. lia.
  - rewrite fromBigEndian_snoc, length_app. simpl length.
    replace (Z.of_nat (length bs + 1)) with (Z.of_nat (length bs) + 1) by lia.
    rewrite Z.pow_add_r by lia.
    pose proof (byte_Z_range b). lia.
Qed.

Lemma toBigEndian_length (n : nat) (v : Z) : length (toBigEndian n v) = n.
Proof.
  revert v. induction n as [|n IH]; intros v; simpl.
  - reflexivity.
  - rewrite length_app, IH. simpl. lia.
Qed.

Lemma fromBigEndian_toBigEndian (n : nat) (v : Z) :
  fromBigEndian (toBigEndian n v) = v mod 256 ^ Z.of_nat n.
Proof.
  revert v. induction n as [|n IH]; intros v.
  - simpl. rewrite Z.mod_1_r. reflexivity.
  - cbn [toBigEndian]. rewrite fromBigEndian_snoc, IH, byte_Z_of_Z.
    replace (Z.of_nat (S n)) with (1 + Z.of_nat n) by lia.
    rewrite Z.pow_add_r by lia. change (256 ^ 1) with 256.
    assert (Hp : 0 < 256 ^ Z.of_nat n) by (apply Z.pow_pos_nonneg; lia).
    rewrite (Z.rem_mul_r v 256 (256 ^ Z.of_nat n)) by lia. lia.
Qed.

Lemma bytesRequired_bound (v : Z) :
  0 <= v -> v < 256 ^ Z.of_nat (bytesRequired v).
Proof.
  intros Hv. unfold bytesRequired.
  destruct (v <=? 0) eqn:E.
  - apply Z.leb_le in E. simpl. lia.
  - apply Z.leb_gt in E.
    pose proof (Z.log2_nonneg v) as Hl.
    pose proof (Z.log2_spec v E) as [_ Hs].
    assert (Hd : 0 <= Z.log2 v / 8) by (apply Z.div_pos; lia).
    rewrite Z2Nat.id by lia.
    change 256 with (2 ^ 8). rewrite <- Z.pow_mul_r by lia.
    eapply Z.lt_le_trans; [exact Hs|].
    apply Z.pow_le_mono_r; [lia|].
    pose proof (Z.mod_pos_bound (Z.log2 v) 8 ltac:(lia)).
    pose proof (Z.div_mod (Z.log2 v) 8 ltac:(lia)). lia.
Qed.

Lemma bytesRequired_le (v : Z) (n : nat) :
  0 <= v < 256 ^ Z.of_nat n -> (bytesRequired v <= n)%nat.
Proof.
  intros [Hv Hlt]. unfold bytesRequired.
  destruct (v <=? 0) eqn:E; [lia|].
  apply Z.leb_gt in E.
  pose proof (Z.log2_nonneg v) as Hl.
  pose proof (Z.log2_spec v E) as [Hs _].
  assert (Hd : 0 <= Z.log2 v / 8) by (apply Z.div_pos; lia).
  assert (Hlog : Z.log2 v < 8 * Z.of_nat n).
  { apply (Z.pow_lt_mono_r_iff 2); [lia|lia|].
    rewrite Z.pow_mul_r by lia. change (2 ^ 8) with 256. lia. }
  assert (Z.log2 v / 8 < Z.of_nat n) by (apply Z.div_lt_upper_bound; lia).
  lia.
Qed.

Lemma fromBigEndian_toCompactBigEndian (v : Z) :
  0 <= v -> fromBigEndian (toCompactBigEndian v) = v.
Proof.
  intros Hv. unfold toCompactBigEndian.
  rewrite fromBigEndian_toBigEndian.
  apply Z.mod_small. split; [exact Hv|]. apply bytesRequired_bound; exact Hv.
Qed.

Lemma toBigEndian_head (n : nat) (v : Z) :
  hd x00 (toBigEndian (S n) v) = byte_of_Z (v / 256 ^ Z.of_nat n).
Proof.
  revert v. induction n as [|n IH]; intros v.
  - simpl. rewrite Z.div_1_r. reflexivity.
  - change (toBigEndian (S (S n)) v)
      with (toBigEndian (S n) (v / 256) ++ [byte_of_Z v]).
    pose proof (toBigEndian_length (S n) (v / 256)) as Hlen.
    destruct (toBigEndian (S n) (v / 256)) as [|b bs] eqn:E; [discriminate|].
    simpl hd. change b with (hd x00 (b :: bs)). rewrite <- E, IH.
    replace (Z.of_nat (S n)) with (1 + Z.of_nat n) by lia.
    rewrite Z.pow_add_r by lia. change (256 ^ 1) with 256.
    assert (Hp : 0 < 256 ^ Z.of_nat n) by (apply Z.pow_pos_nonneg; lia).
    rewrite Z.div_div by lia. reflexivity.
Qed.

(** The compact form never starts with a zero byte. *)
Lemma toCompactBigEndian_head (v : Z) :
  0 < v -> byte_Z (hd x00 (toCompactBigEndian v)) <> 0.
Proof.
  intros Hv. unfold toCompactBigEndian, bytesRequired.
  destruct (v <=? 0) eqn:E; [apply Z.leb_le in E; lia|].
  pose proof (Z.log2_nonneg v) as Hl.
  pose proof (Z.log2_spec v Hv) as [Hlo Hhi].
  assert (Hd : 0 <= Z.log2 v / 8) by (apply Z.div_pos; lia).
  replace (Z.to_nat (Z.log2 v / 8 + 1)) with (S (Z.to_nat (Z.log2 v / 8))) by lia.
  rewrite toBigEndian_head, byte_Z_of_Z, Z2Nat.id by lia.
  set (k := Z.log2 v / 8) in *.
  pose proof (Z.mod_pos_bound (Z.log2 v) 8 ltac:(lia)) as Hm.
  pose proof (Z.div_mod (Z.log2 v) 8 ltac:(lia)) as Hdm. fold k in Hdm.
  assert (Hp : 0 < 256 ^ k) by (apply Z.pow_pos_nonneg; lia).
  assert (Hge : 256 ^ k <= v).
  { change 256 with (2 ^ 8). rewrite <- Z.pow_mul_r by lia.
    eapply Z.le_trans; [|exact Hlo]. apply Z.pow_le_mono_r; lia. }
  assert (Hlt : v < 256 ^ k * 256).
  { eapply Z.lt_le_trans; [exact Hhi|].
    change 256 with (2 ^ 8) at 2. change 256 with (2 ^ 8) at 1.
    rewrite <- Z.pow_mul_r, <- Z.pow_add_r by lia.
    apply Z.pow_le_mono_r; lia. }
  assert (1 <= v / 256 ^ k) by (apply Z.div_le_lower_bound; lia).
  assert (v / 256 ^ k < 256) by (apply Z.div_lt_upper_bound; lia).
  rewrite Z.mod_small by lia. lia.
Qed.

(** *** What one call of a memoised method does *)

Lemma sender_cached (w : World) :
  m_sender (self w) <> 0 -> sender w = (inr (m_sender (self w)), w).
Proof.
  intros H. unfold sender, bind, this, ret, isZero.
  destruct (Z.eqb_spec (m_sender (self w)) 0) as [E|_]; [contradiction|].
  reflexivity.
Qed.

Lemma sender_first (w : World) :
  m_sender (self w) = 0 ->
  let h := Transaction_sha3 (self w) WithoutSignature in
  let p := recover (m_vrs (self w)) h in
  let tr1 := trace w ++ [EvRecover (m_vrs (self w)) h] in
  sender w =
    if isZero p
    then (inl (exception InvalidSignature), {| self := self w; trace := tr1 |})
    else (inr (toAddress p),
          {| self := set_m_sender (toAddress p) (self w); trace := tr1 |}).
Proof.
  intros H h p tr1. unfold sender, bind, this, ret, emit, throw, assign.
  rewrite H. change (isZero 0) with true. cbn iota. cbn [self trace].
  fold h. fold p. destruct (isZero p); reflexivity.
Qed.

(** Whatever [sender] does, it touches no member but [m_sender], and
    when it returns, it returns the member. *)
Lemma sender_frame (w : World) :
  exists a, self (snd (sender w)) = set_m_sender a (self w)
            /\ (fst (sender w) = inr a \/ exists e, fst (sender w) = inl e).
Proof.
  destruct (Z.eq_dec (m_sender (self w)) 0) as [E|E].
  - rewrite (sender_first w E). cbv zeta.
    destruct (isZero _).
    + exists 0. cbn [fst snd self]. split; [|right; eauto].
      destruct w as [t tr]; destruct t; cbn in *; subst; reflexivity.
    + eexists. cbn [fst snd self]. split; [reflexivity|left; reflexivity].
  - rewrite (sender_cached w E). exists (m_sender (self w)).
    cbn [fst snd]. split; [|left; reflexivity].
    destruct w as [t tr]; destruct t; reflexivity.
Qed.

Lemma gasRequired_value (w : World) :
  m_gasRequired (self w) = 0 ->
  gasRequired w =
    (inr (gasRequired_of (m_data (self w))),
     {| self := set_m_gasRequired (gasRequired_of (m_data (self w))) (self w);
        trace := trace w |}).
Proof.
  intros H. unfold gasRequired, bind, this, ret, assign.
  rewrite H. reflexivity.
Qed.

Lemma gasRequired_again (t : Transaction) (tr : list Event) :
  m_gasRequired t = 0 ->
  let g := gasRequired_of (m_data t) in
  gasRequired {| self := set_m_gasRequired g t; trace := tr |}
  = (inr g, {| self := set_m_gasRequired g t; trace := tr |}).
Proof.
  intros H g. unfold gasRequired, bind, this, ret, assign, isZero.
  cbn [self trace set_m_gasRequired m_gasRequired m_data].
  destruct (Z.eqb_spec g 0) as [E|E]; [|reflexivity].
  fold g. rewrite E. reflexivity.
Qed.

(** ** [streamRLP] *)

(** C10.  A transaction of type [NullTransaction] writes nothing: with
    either value of [_sig] the stream comes back exactly as it went in, and
    not even an empty list is appended. *)
Theorem streamRLP_null_writes_nothing
    (t : Transaction) (_s : RLPStream) (_sig : IncludeSignature) :
  m_type t = NullTransaction -> streamRLP t _s _sig = _s.
Proof.
  intros H. unfold streamRLP. rewrite H. reflexivity.
Qed.

Lemma streamRLP_unsigned (t : Transaction) (_s : RLPStream) :
  m_type t <> NullTransaction ->
  streamRLP t _s WithoutSignature = append (RLPList (unsigned_items t)) _s.
Proof.
  intros H. destruct _s as [out stack].
  unfold streamRLP, unsigned_items, recipient_or_empty.
  destruct (m_type t); [contradiction| |]; reflexivity.
Qed.

Lemma streamRLP_signed (t : Transaction) (_s : RLPStream) :
  m_type t <> NullTransaction ->
  streamRLP t _s WithSignature
  = append (RLPList (unsigned_items t ++ signature_items t)) _s.
Proof.
  intros H. destruct _s as [out stack].
  unfold streamRLP, unsigned_items, signature_items, recipient_or_empty.
  destruct (m_type t); [contradiction| |]; reflexivity.
Qed.

(** C9.  A non-null transaction writes one list.  Without the signature it
    has exactly the six items nonce, gasPrice, gas, recipient-or-empty,
    value, data; with the signature it has exactly nine, the same six
    followed by v plus 27, r and s.  The signing hash, and with it [sign],
    is computed over the bytes of the six-item list. *)
Theorem streamRLP_layout
    (t : Transaction) (_s : RLPStream) (_priv : Secret) (tr : list Event) :
  m_type t <> NullTransaction ->
  streamRLP t _s WithoutSignature = append (RLPList (unsigned_items t)) _s
  /\ length (unsigned_items t) = 6%nat
  /\ streamRLP t _s WithSignature
     = append (RLPList (unsigned_items t ++ signature_items t)) _s
  /\ length (unsigned_items t ++ signature_items t) = 9%nat
  /\ (let signing_hash :=
         sha3 (RLPStream_out (append (RLPList (unsigned_items t)) RLPStream_new)) in
      Transaction_sha3 t WithoutSignature = signing_hash
      /\ sign _priv {| self := t; trace := tr |}
         = (inr tt,
            {| self := if isValid (dev_sign _priv signing_hash)
                       then set_m_vrs (dev_sign _priv signing_hash) t
                       else t;
               trace := tr |})).
Proof.
  intros H. repeat split.
  - apply streamRLP_unsigned. exact H.
  - apply streamRLP_signed. exact H.
  - unfold Transaction_sha3, Transaction_rlp.
    rewrite (streamRLP_unsigned t RLPStream_new H). reflexivity.
  - unfold sign, bind, this, ret, assign. cbn [self trace].
    unfold Transaction_sha3, Transaction_rlp.
    rewrite (streamRLP_unsigned t RLPStream_new H).
    destruct (isValid _); reflexivity.
Qed.

(** ** [sender] and [safeSender] *)


(** C2.  [safeSender] always returns an address: the null address, with a
    warning in the log, wherever [sender] throws, and the address [sender]
    returns wherever it returns one. *)
Theorem safeSender_never_raises (w : World) :
  exists (a : Address) (w' : World),
    safeSender w = (inr a, w')
    /\ match sender w with
       | (inl _, w1) =>
           a = ZeroAddress
           /\ w' = {| self := self w1; trace := trace w1 ++ [EvWarn] |}
       | (inr b, w1) => a = b /\ w' = w1
       end.
Proof.
  unfold safeSender, try_catch.
  destruct (sender w) as [[e|b] w1].
  - exists ZeroAddress. eexists. split; [reflexivity|]. split; reflexivity.
  - exists b, w1. repeat split.
Qed.

(** ** The decoding constructor *)

Lemma toInt_error (n : nat) (rlp : RLP) (k : ExceptionKind) :
  RLPReader.toInt n rlp = inl k -> k = BadRLP.
Proof.
  unfold RLPReader.toInt. destruct rlp as [[p|l]|]; try congruence.
  destruct (negb _); [congruence|]. destruct (_ <? _)%nat; congruence.
Qed.

Lemma toHash_error (n : nat) (rlp : RLP) (k : ExceptionKind) :
  RLPReader.toHash n rlp = inl k -> k = BadRLP.
Proof.
  unfold RLPReader.toHash. destruct rlp as [[p|l]|]; try congruence.
  destruct (_ =? _)%nat; congruence.
Qed.

Lemma toInt_range (n : nat) (rlp : RLP) (x : Z) :
  RLPReader.toInt n rlp = inr x -> 0 <= x < 256 ^ Z.of_nat n.
Proof.
  unfold RLPReader.toInt. destruct rlp as [[p|l]|]; try discriminate.
  destruct (negb _); [discriminate|].
  destruct (Nat.ltb_spec n (length p)) as [Hl|Hl]; [discriminate|].
  intros E. injection E as <-.
  pose proof (fromBigEndian_range p) as [H0 H1]. split; [exact H0|].
  eapply Z.lt_le_trans; [exact H1|]. apply Z.pow_le_mono_r; lia.
Qed.

(** The exceptions of the [try] block are [BadRLP] and
    [InvalidSignature]; the field-by-field part throws the first. *)
Lemma decode_fields_error (rlp : RLP) (field : nat) (e : Exception) :
  decode_fields rlp = inl (field, e) ->
  what e = BadRLP /\ (field <= 8)%nat.
Proof.
  unfold decode_fields.
  destruct (RLPReader.isList rlp); cbn [negb];
    [|intros E; injection E as <- <-; split; [reflexivity|lia]].
  repeat
    match goal with
    | |- context [at_field ?i (RLPReader.toInt ?n ?x)] =>
        let E := fresh "E" in
        destruct (RLPReader.toInt n x) as [?k|?] eqn:E; cbn [at_field];
        [apply toInt_error in E; subst;
         intros E'; injection E' as <- <-; split; [reflexivity|lia]|]
    | |- context [at_field ?i (RLPReader.toHash ?n ?x)] =>
        let E := fresh "E" in
        destruct (RLPReader.toHash n x) as [?k|?] eqn:E; cbn [at_field];
        [apply toHash_error in E; subst;
         intros E'; injection E' as <- <-; split; [reflexivity|lia]|]
    | |- context [if RLPReader.isEmpty ?x then _ else _] =>
        destruct (RLPReader.isEmpty x)
    | |- context [if negb (RLPReader.isData ?x) then _ else _] =>
        destruct (RLPReader.isData x); cbn [negb];
        [|intros E'; injection E' as <- <-; split; [reflexivity|lia]]
    | |- context [if (9 <? ?c)%nat then _ else _] =>
        destruct (9 <? c)%nat;
        [intros E'; injection E' as <- <-; split; [reflexivity|lia]|]
    end; discriminate.
Qed.

Lemma decode_fields_sound (rlp : RLP) (t : Transaction) :
  decode_fields rlp = inr t ->
  decoded_from rlp t /\ m_sender t = 0 /\ m_gasRequired t = 0.
Proof.
  unfold decode_fields.
  destruct (RLPReader.isList rlp) eqn:El; cbn [negb]; [|discriminate].
  destruct (RLPReader.toInt 32 rlp.[0]) as [|n0] eqn:E0; cbn [at_field]; [discriminate|].
  destruct (RLPReader.toInt 32 rlp.[1]) as [|n1] eqn:E1; cbn [at_field]; [discriminate|].
  destruct (RLPReader.toInt 32 rlp.[2]) as [|n2] eqn:E2; cbn [at_field]; [discriminate|].
  destruct (if RLPReader.isEmpty rlp.[3] then inr 0
            else at_field 3 (RLPReader.toHash 20 rlp.[3])) as [|a] eqn:E3;
    [discriminate|].
  destruct (RLPReader.toInt 32 rlp.[4]) as [|n4] eqn:E4; cbn [at_field]; [discriminate|].
  destruct (RLPReader.isData rlp.[5]) eqn:E5; cbn [negb]; [|discriminate].
  destruct (RLPReader.toInt 1 rlp.[6]) as [|n6] eqn:E6; cbn [at_field]; [discriminate|].
  destruct (RLPReader.toInt 32 rlp.[7]) as [|n7] eqn:E7; cbn [at_field]; [discriminate|].
  destruct (RLPReader.toInt 32 rlp.[8]) as [|n8] eqn:E8; cbn [at_field]; [discriminate|].
  destruct (Nat.ltb_spec 9 (RLPReader.itemCount rlp)) as [Hc|Hc]; [discriminate|].
  intros E. injection E as <-.
  split; [|split; reflexivity].
  constructor;
    cbn [m_type m_nonce m_value m_receiveAddress m_gasPrice m_gas m_data m_vrs
         SignatureStruct.r SignatureStruct.s SignatureStruct.v];
    try assumption; try reflexivity.
  - destruct (RLPReader.isEmpty rlp.[3]).
    + injection E3 as <-. split; reflexivity.
    + split; [reflexivity|].
      destruct (RLPReader.toHash 20 rlp.[3]) as [|a']; cbn [at_field] in E3;
        [discriminate E3|]. injection E3 as <-. reflexivity.
  - exists n6. split; [assumption|reflexivity].
Qed.

Lemma same_message_refl (t : Transaction) : same_message t t.
Proof. unfold same_message. repeat split. Qed.

Lemma same_message_trans (t1 t2 t3 : Transaction) :
  same_message t1 t2 -> same_message t2 t3 -> same_message t1 t3.
Proof.
  intros (A1 & A2 & A3 & A4 & A5 & A6 & A7 & A8)
         (B1 & B2 & B3 & B4 & B5 & B6 & B7 & B8).
  unfold same_message.
  rewrite B1, B2, B3, B4, B5, B6, B7, B8. repeat split; assumption.
Qed.

Lemma same_message_set_m_sender (a : Address) (t : Transaction) :
  same_message t (set_m_sender a t).
Proof. unfold same_message. cbn. repeat split. Qed.

Lemma same_message_set_m_gasRequired (g : bigint) (t : Transaction) :
  same_message t (set_m_gasRequired g t).
Proof. unfold same_message. cbn. repeat split. Qed.

Lemma decoded_from_same (rlp : RLP) (t t' : Transaction) :
  same_message t t' -> decoded_from rlp t -> decoded_from rlp t'.
Proof.
  intros (E1 & E2 & E3 & E4 & E5 & E6 & E7 & E8) [].
  constructor; rewrite ?E1, ?E2, ?E3, ?E4, ?E5, ?E6, ?E7, ?E8; assumption.
Qed.

(** What the [try] block returns is what the fields decode to, with at
    most [m_sender] filled in; under [Cheap] and [Everything] its
    signature has passed [isValid]. *)
Lemma try_block_sound (rlp : RLP) (_checkSig : CheckTransaction.t)
    (tr tr' : list Event) (t : Transaction) :
  try_block rlp _checkSig tr = (inr t, tr') ->
  exists t0, decode_fields rlp = inr t0
    /\ same_message t0 t /\ m_gasRequired t = 0
    /\ (CheckTransaction.ge_Cheap _checkSig = true -> isValid (m_vrs t) = true).
Proof.
  unfold try_block. destruct (decode_fields rlp) as [e|t0] eqn:E; [discriminate|].
  destruct (decode_fields_sound _ _ E) as (_ & _ & Hg).
  destruct (CheckTransaction.ge_Cheap _checkSig) eqn:Ec; cbn [andb].
  - destruct (isValid (m_vrs t0)) eqn:Ev; cbn [negb]; [|discriminate].
    destruct (CheckTransaction.is_Everything _checkSig).
    + destruct (sender {| self := t0; trace := tr |}) as [[e|a] w] eqn:Es;
        [discriminate|].
      intros E'. injection E' as <- <-.
      destruct (sender_frame {| self := t0; trace := tr |}) as (a' & Hs & _).
      rewrite Es in Hs. cbn [snd self] in Hs. rewrite Hs.
      exists t0. repeat split; try reflexivity; try assumption.
      intros _. exact Ev.
    + intros E'. injection E' as <- <-. exists t0.
      repeat split; try reflexivity; try assumption. intros _. exact Ev.
  - destruct _checkSig; try discriminate. cbn.
    intros E'. injection E' as <- <-. exists t0.
    repeat split; try reflexivity; try assumption. discriminate.
Qed.

Lemma try_block_error (rlp : RLP) (_checkSig : CheckTransaction.t)
    (tr tr' : list Event) (field : nat) (e : Exception) :
  try_block rlp _checkSig tr = (inl (field, e), tr') ->
  what e = BadRLP \/ what e = InvalidSignature.
Proof.
  unfold try_block. destruct (decode_fields rlp) as [[f0 e0]|t0] eqn:E.
  - intros E'. injection E' as <- <- <-.
    left. exact (proj1 (decode_fields_error _ _ _ E)).
  - destruct (_ && _).
    + intros E'. injection E' as <- <- <-. cbn. auto.
    + destruct (CheckTransaction.is_Everything _checkSig); [|discriminate].
      destruct (sender {| self := t0; trace := tr |}) as [[e1|a] w] eqn:Es;
        [|discriminate].
      intros E'. injection E' as <- <- <-.
      destruct (Z.eq_dec (m_sender t0) 0) as [H0|H0].
      * rewrite (sender_first {| self := t0; trace := tr |} H0) in Es.
        cbv zeta in Es. destruct (isZero _); [|discriminate].
        injection Es as <- <-. cbn. auto.
      * rewrite (sender_cached {| self := t0; trace := tr |} H0) in Es.
        discriminate.
Qed.

Lemma payment_check_value (_checkSig : CheckTransaction.t)
    (t : Transaction) (tr : list Event) :
  m_gasRequired t = 0 ->
  let required := gasRequired_of (m_data t) in
  payment_check _checkSig {| self := t; trace := tr |} =
    if CheckTransaction.ge_Cheap _checkSig then
      if required <=? m_gas t
      then (inr tt, {| self := set_m_gasRequired required t; trace := tr |})
      else (inl {| what := OutOfGasIntrinsic; errinfo_comment := None;
                   errinfo_name := None; BadFieldError := None;
                   RequirementError := Some (required, m_gas t) |},
            {| self := set_m_gasRequired required t; trace := tr |})
    else (inr tt, {| self := t; trace := tr |}).
Proof.
  intros H required. unfold payment_check.
  destruct (CheckTransaction.ge_Cheap _checkSig).
  - unfold checkPayment, bind, this, ret, throw.
    rewrite (gasRequired_value {| self := t; trace := tr |} H).
    cbn [self trace set_m_gasRequired m_gas m_data]. fold required.
    destruct (required <=? m_gas t); cbn [negb]; [reflexivity|].
    pose proof (gasRequired_again t tr H) as G. cbv zeta in G.
    fold required in G. rewrite G.
    reflexivity.
  - reflexivity.
Qed.

Lemma Transaction_decode_of_try (_rlpData : bytes) (rlp : RLP)
    (_checkSig : CheckTransaction.t) (tr : list Event) :
  RLP_open _rlpData = inr rlp ->
  Transaction_decode _rlpData _checkSig tr =
    match try_block rlp _checkSig tr with
    | (inl (field, e), tr') => (inl (handler field e), tr')
    | (inr t, tr') =>
        match payment_check _checkSig {| self := t; trace := tr' |} with
        | (inl e, w) => (inl e, trace w)
        | (inr _, w) => (inr (self w), trace w)
        end
    end.
Proof.
  intros H. unfold Transaction_decode. rewrite H. reflexivity.
Qed.

(** Bytes that the RLP reader refuses never reach the [try] block. *)
Lemma Transaction_decode_unreadable (_rlpData : bytes) (k : ExceptionKind)
    (_checkSig : CheckTransaction.t) (tr : list Event) :
  RLP_open _rlpData = inl k ->
  Transaction_decode _rlpData _checkSig tr = (inl (exception k), tr).
Proof.
  intros H. unfold Transaction_decode. rewrite H. reflexivity.
Qed.

Lemma Transaction_decode_failed_fields (_rlpData : bytes) (rlp : RLP)
    (_checkSig : CheckTransaction.t) (tr : list Event)
    (field : nat) (e : Exception) :
  RLP_open _rlpData = inr rlp ->
  decode_fields rlp = inl (field, e) ->
  Transaction_decode _rlpData _checkSig tr = (inl (handler field e), tr).
Proof.
  intros H E. rewrite (Transaction_decode_of_try _ _ _ _ H).
  unfold try_block. rewrite E. reflexivity.
Qed.

Lemma Transaction_decode_sound (_rlpData : bytes) (rlp : RLP)
    (_checkSig : CheckTransaction.t) (tr tr' : list Event) (t : Transaction) :
  RLP_open _rlpData = inr rlp ->
  Transaction_decode _rlpData _checkSig tr = (inr t, tr') ->
  exists t0, decode_fields rlp = inr t0 /\ same_message t0 t.
Proof.
  intros H. rewrite (Transaction_decode_of_try _ _ _ _ H).
  destruct (try_block rlp _checkSig tr) as [[[f e]|t1] tr1] eqn:Et; [discriminate|].
  destruct (try_block_sound _ _ _ _ _ Et) as (t0 & E0 & Hs & Hg & _).
  rewrite (payment_check_value _checkSig t1 tr1 Hg). cbv zeta.
  destruct (CheckTransaction.ge_Cheap _checkSig).
  - destruct (_ <=? _); [|discriminate].
    cbn [self trace]. intros E. injection E as <- <-.
    exists t0. split; [exact E0|].
    eapply same_message_trans; [exact Hs|apply same_message_set_m_gasRequired].
  - cbn [self trace]. intros E. injection E as <- <-. eauto.
Qed.

(** C6.  In a transaction that was decoded, an empty field 3 gives the
    type [ContractCreation] and the null address as the recipient; any
    other field 3 gives the type [MessageCall] and, as the recipient,
    exactly the address that field 3 converts to. *)
Theorem decoded_type_and_recipient (_rlpData : bytes) (rlp : RLP)
    (_checkSig : CheckTransaction.t) (tr tr' : list Event) (t : Transaction) :
  RLP_open _rlpData = inr rlp ->
  Transaction_decode _rlpData _checkSig tr = (inr t, tr') ->
  if RLPReader.isEmpty rlp.[3]
  then m_type t = ContractCreation /\ m_receiveAddress t = ZeroAddress
  else m_type t = MessageCall
       /\ RLPReader.toHash 20 rlp.[3] = inr (m_receiveAddress t).
Proof.
  intros Ho Hd.
  destruct (Transaction_decode_sound _ _ _ _ _ _ Ho Hd) as (t0 & E & Hs).
  apply decode_fields_sound in E as (D & _).
  exact (df_to _ _ (decoded_from_same _ _ _ Hs D)).
Qed.

(** C7.  The payment check comes after the [try] block.  When the block
    throws, that exception leaves the constructor and it is never
    [OutOfGasIntrinsic].  When the block returns, which under [Cheap] and
    [Everything] means that the signature has passed [isValid], the
    constructor under these two modes compares the gas supplied with
    [gasRequired()] and throws [OutOfGasIntrinsic] with both numbers when
    it does not suffice; under [None] nothing is compared and the object
    is returned whatever its gas. *)
Theorem payment_check_after_signature (_rlpData : bytes) (rlp : RLP)
    (_checkSig : CheckTransaction.t) (tr : list Event) :
  RLP_open _rlpData = inr rlp ->
  match try_block rlp _checkSig tr with
  | (inl (field, e), tr') =>
      Transaction_decode _rlpData _checkSig tr = (inl (handler field e), tr')
      /\ what (handler field e) <> OutOfGasIntrinsic
  | (inr t, tr') =>
      let required := gasRequired_of (m_data t) in
      (CheckTransaction.ge_Cheap _checkSig = true -> isValid (m_vrs t) = true)
      /\ fst (gasRequired {| self := t; trace := tr' |}) = inr required
      /\ Transaction_decode _rlpData _checkSig tr =
           if CheckTransaction.ge_Cheap _checkSig then
             if required <=? m_gas t
             then (inr (set_m_gasRequired required t), tr')
             else (inl {| what := OutOfGasIntrinsic; errinfo_comment := None;
                          errinfo_name := None; BadFieldError := None;
                          RequirementError := Some (required, m_gas t) |},
                   tr')
           else (inr t, tr')
  end.
Proof.
  intros Ho. rewrite (Transaction_decode_of_try _ _ _ _ Ho).
  destruct (try_block rlp _checkSig tr) as [[[f e]|t1] tr1] eqn:Et.
  - split; [reflexivity|].
    apply try_block_error in Et. cbn [handler what].
    destruct Et as [-> | ->]; discriminate.
  - destruct (try_block_sound _ _ _ _ _ Et) as (t0 & E0 & Hs & Hg & Hv).
    cbv zeta. split; [exact Hv|]. split.
    + rewrite (gasRequired_value {| self := t1; trace := tr1 |} Hg).
      reflexivity.
    + rewrite (payment_check_value _checkSig t1 tr1 Hg). cbv zeta.
      destruct (CheckTransaction.ge_Cheap _checkSig); [|reflexivity].
      destruct (_ <=? _); reflexivity.
Qed.

(** C8, as amended.  The stored [v] is the wire value of field 6 minus 27
    in byte arithmetic, that is modulo 256: the plain difference when the
    wire value is at least 27.  Every transaction the constructor returns
    carries this triple, [isValid] is asked about it only after the
    subtraction, and under [Cheap] and [Everything] a triple that is not
    valid makes the constructor throw [InvalidSignature]. *)
Theorem signature_v_normalized (_rlpData : bytes) (rlp : RLP)
    (_checkSig : CheckTransaction.t) (tr : list Event) (t0 : Transaction) :
  RLP_open _rlpData = inr rlp ->
  decode_fields rlp = inr t0 ->
  (exists v_wire : Z,
      RLPReader.toInt 1 rlp.[6] = inr v_wire /\ 0 <= v_wire < 256
      /\ SignatureStruct.v (m_vrs t0) = (v_wire - 27) mod 256
      /\ (27 <= v_wire -> SignatureStruct.v (m_vrs t0) = v_wire - 27))
  /\ (forall (t : Transaction) (tr' : list Event),
        Transaction_decode _rlpData _checkSig tr = (inr t, tr') ->
        m_vrs t = m_vrs t0)
  /\ (CheckTransaction.ge_Cheap _checkSig = true ->
      isValid (m_vrs t0) = false ->
      Transaction_decode _rlpData _checkSig tr
      = (inl (handler 8 (exception InvalidSignature)), tr)).
Proof.
  intros Ho E0. split; [|split].
  - destruct (decode_fields_sound _ _ E0) as (D & _).
    destruct (df_v _ _ D) as (v_wire & Hw & Hv).
    exists v_wire. pose proof (toInt_range _ _ _ Hw) as Hr.
    change (256 ^ Z.of_nat 1) with 256 in Hr.
    repeat split; try assumption; try lia.
    intros Hge. rewrite Hv. apply Z.mod_small. lia.
  - intros t tr' Hd.
    destruct (Transaction_decode_sound _ _ _ _ _ _ Ho Hd) as (t0' & E0' & Hs).
    rewrite E0 in E0'. injection E0' as <-.
    destruct Hs as (_ & _ & _ & _ & _ & _ & _ & Hvrs). exact Hvrs.
  - intros Hc Hv. rewrite (Transaction_decode_of_try _ _ _ _ Ho).
    unfold try_block. rewrite E0, Hc, Hv. reflexivity.
Qed.





(** ** Signing, writing and reading back *)

Lemma toInt_toCompactBigEndian (n : nat) (v : Z) :
  0 <= v < 256 ^ Z.of_nat n ->
  RLPReader.toInt n (Some (RLPData (toCompactBigEndian v))) = inr v.
Proof.
  intros Hv. unfold RLPReader.toInt.
  assert (Hint : RLPReader.isInt (Some (RLPData (toCompactBigEndian v))) = true).
  { unfold RLPReader.isInt.
    destruct (toCompactBigEndian v) as [|b bs] eqn:E; [reflexivity|].
    destruct (Z.eq_dec v 0) as [->|Hnz]; [discriminate E|].
    pose proof (toCompactBigEndian_head v ltac:(lia)) as Hh.
    rewrite E in Hh. cbn [hd] in Hh.
    apply negb_true_iff, Z.eqb_neq. exact Hh. }
  rewrite Hint. cbn [negb].
  unfold toCompactBigEndian at 1. rewrite toBigEndian_length.
  pose proof (bytesRequired_le v n Hv) as Hle.
  destruct (Nat.ltb_spec n (bytesRequired v)) as [Hlt|_]; [lia|].
  rewrite fromBigEndian_toCompactBigEndian by lia. reflexivity.
Qed.

Lemma toHash_toBigEndian (n : nat) (a : Z) :
  0 <= a < 256 ^ Z.of_nat n ->
  RLPReader.toHash n (Some (RLPData (toBigEndian n a))) = inr a.
Proof.
  intros Ha. unfold RLPReader.toHash.
  rewrite toBigEndian_length, Nat.eqb_refl, fromBigEndian_toBigEndian.
  rewrite Z.mod_small by exact Ha. reflexivity.
Qed.

Lemma isEmpty_toBigEndian (n : nat) (a : Z) :
  RLPReader.isEmpty (Some (RLPData (toBigEndian (S n) a))) = false.
Proof.
  pose proof (toBigEndian_length (S n) a) as Hl.
  destruct (toBigEndian (S n) a); [discriminate Hl|reflexivity].
Qed.

Lemma streamRLP_same (t t' : Transaction) (_s : RLPStream)
    (_sig : IncludeSignature) :
  same_message t t' -> streamRLP t' _s _sig = streamRLP t _s _sig.
Proof.
  intros (E1 & E2 & E3 & E4 & E5 & E6 & E7 & E8).
  unfold streamRLP. rewrite E1, E2, E3, E4, E5, E6, E7, E8. reflexivity.
Qed.

Lemma Transaction_sha3_same (t t' : Transaction) (_sig : IncludeSignature) :
  same_message t t' -> Transaction_sha3 t' _sig = Transaction_sha3 t _sig.
Proof.
  intros H. unfold Transaction_sha3, Transaction_rlp.
  rewrite (streamRLP_same _ _ _ _ H). reflexivity.
Qed.

Lemma unsigned_items_as_received (t : Transaction) :
  unsigned_items (as_received t) = unsigned_items t.
Proof.
  unfold unsigned_items, recipient_or_empty, as_received.
  cbn [m_type m_nonce m_gasPrice m_gas m_receiveAddress m_value m_data].
  destruct (m_type t); reflexivity.
Qed.

Lemma Transaction_sha3_as_received (t : Transaction) :
  m_type t <> NullTransaction ->
  Transaction_sha3 (as_received t) WithoutSignature
  = Transaction_sha3 t WithoutSignature.
Proof.
  intros H. unfold Transaction_sha3, Transaction_rlp.
  rewrite (streamRLP_unsigned t _ H), (streamRLP_unsigned (as_received t) _ H).
  rewrite unsigned_items_as_received. reflexivity.
Qed.

(** The nine items that a well-formed, non-null transaction writes decode
    to the object of [as_received]. *)
Lemma decode_fields_streamed (t : Transaction) :
  m_type t <> NullTransaction ->
  Transaction_wf t -> Signature_wf (m_vrs t) ->
  decode_fields (Some (RLPList (unsigned_items t ++ signature_items t)))
  = inr (as_received t).
Proof.
  intros Hn [Hnonce Hprice Hgas Hvalue Haddr] [Hr Hs Hv].
  change (2 ^ 256) with (256 ^ Z.of_nat 32) in *.
  change (2 ^ 160) with (256 ^ Z.of_nat 20) in *.
  unfold decode_fields, unsigned_items, signature_items.
  cbn [app RLPReader.isList negb RLPReader.index nth_error RLPReader.itemCount
       length RLPReader.isData RLPReader.toBytes].
  rewrite !toInt_toCompactBigEndian by assumption.
  rewrite (toInt_toCompactBigEndian 1)
    by (change (256 ^ Z.of_nat 1) with 256; lia).
  cbn [at_field].
  replace ((SignatureStruct.v (m_vrs t) + 27 - 27) mod 256)
    with (SignatureStruct.v (m_vrs t)) by (rewrite Z.mod_small; lia).
  unfold as_received, recipient_or_empty.
  destruct (m_type t) eqn:Et; [contradiction| |].
  - cbn [RLPReader.isEmpty].
    rewrite !toInt_toCompactBigEndian by assumption.
    cbn. destruct (m_vrs t); reflexivity.
  - rewrite isEmpty_toBigEndian, toHash_toBigEndian by assumption.
    cbn [at_field].
    rewrite !toInt_toCompactBigEndian by assumption.
    cbn. destruct (m_vrs t); reflexivity.
Qed.

Lemma sender_value (t : Transaction) (tr : list Event) (p : Public) :
  recover (m_vrs t) (Transaction_sha3 t WithoutSignature) = p ->
  p <> 0 ->
  m_sender t = 0 \/ m_sender t = toAddress p ->
  fst (sender {| self := t; trace := tr |}) = inr (toAddress p).
Proof.
  intros Hp Hnz Hs.
  destruct (Z.eq_dec (m_sender t) 0) as [H0|H0].
  - rewrite (sender_first {| self := t; trace := tr |} H0). cbv zeta.
    cbn [self]. rewrite Hp. unfold isZero.
    destruct (Z.eqb_spec p 0); [contradiction|reflexivity].
  - rewrite (sender_cached {| self := t; trace := tr |} H0). cbn [fst self].
    destruct Hs as [Hs|Hs]; [contradiction|]. rewrite Hs. reflexivity.
Qed.

Lemma try_block_accepts (rlp : RLP) (_checkSig : CheckTransaction.t)
    (tr : list Event) (t0 : Transaction) (p : Public) :
  decode_fields rlp = inr t0 ->
  m_sender t0 = 0 ->
  isValid (m_vrs t0) = true ->
  recover (m_vrs t0) (Transaction_sha3 t0 WithoutSignature) = p -> p <> 0 ->
  exists t1 tr1,
    try_block rlp _checkSig tr = (inr t1, tr1)
    /\ same_message t0 t1 /\ m_gasRequired t1 = m_gasRequired t0
    /\ (m_sender t1 = 0 \/ m_sender t1 = toAddress p).
Proof.
  intros E H0 Hv Hp Hnz. unfold try_block. rewrite E, Hv.
  rewrite andb_false_r.
  destruct (CheckTransaction.is_Everything _checkSig).
  - rewrite (sender_first {| self := t0; trace := tr |} H0). cbv zeta.
    cbn [self trace]. rewrite Hp. unfold isZero.
    destruct (Z.eqb_spec p 0); [contradiction|].
    eexists; eexists. split; [reflexivity|]. cbn.
    unfold same_message. cbn. repeat split. right. reflexivity.
  - exists t0, tr. split; [reflexivity|].
    split; [apply same_message_refl|]. auto.
Qed.

Lemma Transaction_sha3_set_m_vrs (sig : SignatureStruct.t) (t : Transaction) :
  Transaction_sha3 (set_m_vrs sig t) WithoutSignature
  = Transaction_sha3 t WithoutSignature.
Proof.
  unfold Transaction_sha3, Transaction_rlp, streamRLP.
  cbn [set_m_vrs m_type m_nonce m_gasPrice m_gas m_receiveAddress m_value m_data].
  reflexivity.
Qed.

(** C3, as amended.  Take a transaction that is not the null transaction
    and whose members hold values of their types, and a secret whose
    signature over the signing hash is valid, so that [sign] installs it,
    and is recovered to the secret's public key.  Sign, write with the
    signature, and let the reader open the bytes as the list that was
    written.  Then decoding succeeds, with the payment check off or the gas
    sufficient, and [sender] of the decoded transaction is the address of
    the secret's public key. *)
Theorem sign_encode_decode_sender (t : Transaction) (_priv : Secret)
    (_checkSig : CheckTransaction.t) (tr0 tr : list Event) :
  let h := Transaction_sha3 t WithoutSignature in
  let sig := dev_sign _priv h in
  let signed := self (snd (sign _priv {| self := t; trace := tr0 |})) in
  m_type t <> NullTransaction ->
  Transaction_wf t ->
  isValid sig = true -> Signature_wf sig ->
  recover sig h = toPublic _priv -> toPublic _priv <> 0 ->
  RLP_open (Transaction_rlp signed WithSignature)
  = inr (Some (RLPList (unsigned_items signed ++ signature_items signed))) ->
  _checkSig = CheckTransaction.None \/ gasRequired_of (m_data t) <= m_gas t ->
  exists (t' : Transaction) (tr' : list Event),
    Transaction_decode (Transaction_rlp signed WithSignature) _checkSig tr
    = (inr t', tr')
    /\ forall tr'' : list Event,
         fst (sender {| self := t'; trace := tr'' |})
         = inr (toAddress (toPublic _priv)).
Proof.
  intros h sig signed Hn Hwf Hvalid Hsig Hrec Hpub Hopen Hpay.
  assert (Es : signed = set_m_vrs sig t).
  { unfold signed, sign, bind, this, ret, assign. cbn [self trace].
    fold h. fold sig. rewrite Hvalid. reflexivity. }
  rewrite Es in *. clear Es signed.
  set (ts := set_m_vrs sig t) in *.
  assert (Hn' : m_type ts <> NullTransaction) by exact Hn.
  assert (Hwf' : Transaction_wf ts) by (destruct Hwf; constructor; assumption).
  assert (Hsig' : Signature_wf (m_vrs ts)) by exact Hsig.
  pose proof (decode_fields_streamed ts Hn' Hwf' Hsig') as Hdec.
  set (t0 := as_received ts) in *.
  assert (Hh0 : Transaction_sha3 t0 WithoutSignature = h).
  { unfold t0. rewrite (Transaction_sha3_as_received ts Hn').
    apply Transaction_sha3_set_m_vrs. }
  assert (Hrec0 : recover (m_vrs t0) (Transaction_sha3 t0 WithoutSignature)
                  = toPublic _priv) by (rewrite Hh0; exact Hrec).
  destruct (try_block_accepts _ _checkSig tr t0 (toPublic _priv) Hdec
              eq_refl Hvalid Hrec0 Hpub)
    as (t1 & tr1 & Htry & Hsame & Hg & Hsender).
  change (m_gasRequired t0) with 0 in Hg.
  rewrite (Transaction_decode_of_try _ _ _checkSig tr Hopen), Htry.
  rewrite (payment_check_value _checkSig t1 tr1 Hg). cbv zeta.
  assert (Hfinal : forall t', same_message t1 t' -> m_sender t' = m_sender t1 ->
            forall tr'' : list Event,
              fst (sender {| self := t'; trace := tr'' |})
              = inr (toAddress (toPublic _priv))).
  { intros t' Hs' Hm tr''.
    pose proof (same_message_trans _ _ _ Hsame Hs') as Hs0.
    apply sender_value; [| exact Hpub | rewrite Hm; exact Hsender].
    rewrite (Transaction_sha3_same _ _ _ Hs0).
    destruct Hs0 as (_ & _ & _ & _ & _ & _ & _ & ->). exact Hrec0. }
  destruct (CheckTransaction.ge_Cheap _checkSig) eqn:Ec.
  - assert (Hok : (gasRequired_of (m_data t1) <=? m_gas t1) = true).
    { destruct Hpay as [->|Hpay]; [discriminate Ec|].
      destruct Hsame as (_ & _ & _ & _ & _ & -> & -> & _).
      apply Z.leb_le. exact Hpay. }
    rewrite Hok. cbn [self trace].
    eexists; eexists. split; [reflexivity|].
    apply Hfinal; [apply same_message_set_m_gasRequired|reflexivity].
  - cbn [self trace]. eexists; eexists. split; [reflexivity|].
    apply Hfinal; [apply same_message_refl|reflexivity].
Qed.

(** ** The memoised methods and [sign] together *)

Lemma Transaction_rlp_same (t t' : Transaction) (_sig : IncludeSignature) :
  same_message t t' -> Transaction_rlp t' _sig = Transaction_rlp t _sig.
Proof.
  intros H. unfold Transaction_rlp.
  rewrite (streamRLP_same _ _ _ _ H). reflexivity.
Qed.

Lemma sender_same_message (w : World) :
  same_message (self w) (self (snd (sender w)))
  /\ m_gasRequired (self (snd (sender w))) = m_gasRequired (self w).
Proof.
  destruct (sender_frame w) as (a & -> & _).
  split; [apply same_message_set_m_sender|reflexivity].
Qed.

Lemma gasRequired_run (w : World) :
  exists g : bigint,
    gasRequired w
    = (inr g, {| self := set_m_gasRequired g (self w); trace := trace w |})
    /\ (m_gasRequired (self w) = 0 -> g = gasRequired_of (m_data (self w)))
    /\ (m_gasRequired (self w) <> 0 -> g = m_gasRequired (self w)).
Proof.
  destruct (Z.eq_dec (m_gasRequired (self w)) 0) as [E|E].
  - exists (gasRequired_of (m_data (self w))).
    rewrite (gasRequired_value w E).
    split; [reflexivity|]. split; [reflexivity|contradiction].
  - exists (m_gasRequired (self w)).
    split; [|split; [contradiction|reflexivity]].
    unfold gasRequired, bind, this, ret, assign, isZero.
    destruct (Z.eqb_spec (m_gasRequired (self w)) 0) as [E'|_];
      [contradiction|].
    destruct w as [t tr]; destruct t; reflexivity.
Qed.

(** X1.  [sender] gives the same answer when it is called again, be it an
    address or [InvalidSignature], and the second call leaves the object
    as the first one left it: this holds also where nothing could be
    cached. *)
Theorem sender_stable (w : World) :
  fst (sender (snd (sender w))) = fst (sender w)
  /\ self (snd (sender (snd (sender w)))) = self (snd (sender w)).
Proof.
  destruct (Z.eq_dec (m_sender (self w)) 0) as [E|E].
  - pose proof (sender_first w E) as H1. cbv zeta in H1.
    set (h := Transaction_sha3 (self w) WithoutSignature) in *.
    set (p := recover (m_vrs (self w)) h) in *.
    destruct (isZero p) eqn:Ep.
    + rewrite H1. cbn [fst snd].
      pose proof (sender_first
                    {| self := self w;
                       trace := trace w ++ [EvRecover (m_vrs (self w)) h] |}
                    E) as H2.
      cbv zeta in H2. cbn [self trace] in H2. fold h in H2. fold p in H2.
      rewrite Ep in H2. rewrite H2. split; reflexivity.
    + rewrite H1. cbn [fst snd].
      set (a := toAddress p) in *.
      set (w1 := {| self := set_m_sender a (self w);
                    trace := trace w ++ [EvRecover (m_vrs (self w)) h] |}).
      destruct (Z.eq_dec a 0) as [Ea|Ea].
      * assert (E1 : m_sender (self w1) = 0) by exact Ea.
        pose proof (sender_first w1 E1) as H2. cbv zeta in H2.
        assert (Eh : Transaction_sha3 (self w1) WithoutSignature = h).
        { apply Transaction_sha3_same. apply same_message_set_m_sender. }
        rewrite Eh in H2.
        change (m_vrs (self w1)) with (m_vrs (self w)) in H2.
        fold p in H2. rewrite Ep in H2. fold a in H2.
        rewrite H2. split; reflexivity.
      * assert (E1 : m_sender (self w1) <> 0) by exact Ea.
        rewrite (sender_cached w1 E1). split; reflexivity.
  - rewrite (sender_cached w E). cbn [fst snd].
    rewrite (sender_cached w E). split; reflexivity.
Qed.

(** X2.  [gasRequired] never throws and touches nothing but its cache: the
    trace, the message and the sender cache stay.  On an empty cache it
    returns the cost of the data; a second call returns the same number
    and changes nothing any more. *)
Theorem gasRequired_idempotent (w : World) :
  exists (g : bigint) (w1 : World),
    gasRequired w = (inr g, w1)
    /\ trace w1 = trace w
    /\ same_message (self w) (self w1)
    /\ m_sender (self w1) = m_sender (self w)
    /\ (m_gasRequired (self w) = 0 -> g = gasRequired_of (m_data (self w)))
    /\ gasRequired w1 = (inr g, w1).
Proof.
  destruct (gasRequired_run w) as (g & H1 & H0 & Hn).
  exists g. eexists. split; [exact H1|].
  split; [reflexivity|]. split; [apply same_message_set_m_gasRequired|].
  split; [reflexivity|]. split; [exact H0|].
  set (w1 := {| self := set_m_gasRequired g (self w); trace := trace w |}).
  destruct (gasRequired_run w1) as (g' & H1' & H0' & Hn').
  rewrite H1'.
  assert (Eg : g' = g).
  { destruct (Z.eq_dec g 0) as [Ez|Ez].
    - rewrite (H0' Ez). cbn [w1 self set_m_gasRequired m_data].
      destruct (Z.eq_dec (m_gasRequired (self w)) 0) as [E|E].
      + symmetry. exact (H0 E).
      + exfalso. apply E. rewrite <- (Hn E). exact Ez.
    - exact (Hn' Ez). }
  rewrite Eg. f_equal.
Qed.

(** X3.  The caches do not show on the wire: after [sender], [safeSender]
    or [gasRequired] the transaction serializes, with or without its
    signature, to the bytes it serialized to before. *)
Theorem caches_not_serialized (w : World) (_sig : IncludeSignature) :
  Transaction_rlp (self (snd (sender w))) _sig = Transaction_rlp (self w) _sig
  /\ Transaction_rlp (self (snd (safeSender w))) _sig
     = Transaction_rlp (self w) _sig
  /\ Transaction_rlp (self (snd (gasRequired w))) _sig
     = Transaction_rlp (self w) _sig.
Proof.
  split; [|split].
  - apply Transaction_rlp_same. apply sender_same_message.
  - apply Transaction_rlp_same. unfold safeSender, try_catch.
    pose proof (sender_same_message w) as [Hs _].
    destruct (sender w) as [[e|a] w1]; exact Hs.
  - apply Transaction_rlp_same.
    destruct (gasRequired_run w) as (g & -> & _).
    apply same_message_set_m_gasRequired.
Qed.

Lemma sign_run (_priv : Secret) (w : World) :
  let sig := dev_sign _priv (Transaction_sha3 (self w) WithoutSignature) in
  sign _priv w
  = (inr tt,
     {| self := if isValid sig then set_m_vrs sig (self w) else self w;
        trace := trace w |}).
Proof.
  unfold sign, bind, this, ret, assign. cbv zeta.
  destruct (isValid _); [reflexivity|]. destruct w; reflexivity.
Qed.

Lemma Transaction_rlp_unsigned_set_m_vrs (sig : SignatureStruct.t)
    (t : Transaction) :
  Transaction_rlp (set_m_vrs sig t) WithoutSignature
  = Transaction_rlp t WithoutSignature.
Proof.
  unfold Transaction_rlp, streamRLP.
  cbn [set_m_vrs m_type m_nonce m_gasPrice m_gas m_receiveAddress m_value m_data].
  reflexivity.
Qed.

(** X4.  [sign] never throws and leaves the unsigned serialization, hence
    the signing hash, as it was; signing again with the same secret
    changes nothing any more. *)
Theorem sign_idempotent (_priv : Secret) (w : World) :
  exists w1 : World,
    sign _priv w = (inr tt, w1)
    /\ Transaction_rlp (self w1) WithoutSignature
       = Transaction_rlp (self w) WithoutSignature
    /\ sign _priv w1 = (inr tt, w1).
Proof.
  rewrite (sign_run _priv w). cbv zeta.
  set (sig := dev_sign _priv (Transaction_sha3 (self w) WithoutSignature)).
  eexists. split; [reflexivity|].
  assert (Hr : Transaction_rlp
                 (if isValid sig then set_m_vrs sig (self w) else self w)
                 WithoutSignature
               = Transaction_rlp (self w) WithoutSignature).
  { destruct (isValid sig);
      [apply Transaction_rlp_unsigned_set_m_vrs|reflexivity]. }
  split; [exact Hr|].
  rewrite sign_run. cbv zeta. cbn [self trace].
  unfold Transaction_sha3 at 1 2. rewrite Hr.
  fold (Transaction_sha3 (self w) WithoutSignature). fold sig.
  destruct (isValid sig) eqn:Ev; [|reflexivity].
  destruct w as [t tr]; destruct t; reflexivity.
Qed.

(** X5.  [sign] does not reset the sender cache: once [sender] has cached
    an address, it keeps returning that address after the transaction has
    been signed again, whatever the secret. *)
Theorem sign_keeps_cached_sender (_priv : Secret) (w : World) :
  m_sender (self w) <> 0 ->
  sender (snd (sign _priv w))
  = (inr (m_sender (self w)), snd (sign _priv w)).
Proof.
  intros H. rewrite (sign_run _priv w). cbv zeta. cbn [snd].
  set (w1 := {| self := _; trace := trace w |}).
  assert (E : m_sender (self w1) = m_sender (self w)).
  { unfold w1. cbn [self]. destruct (isValid _); reflexivity. }
  rewrite <- E in H |- *. exact (sender_cached w1 H).
Qed.

(** ** More on the decoding constructor *)

Lemma decode_fields_converts (rlp : RLP) (t : Transaction) :
  decode_fields rlp = inr t -> fields_convert rlp 9 = true.
Proof.
  intros E. destruct (decode_fields_sound _ _ E) as (D & _).
  destruct D as [Hl H0 H1 H2 H3 H4 H5 _ (vw & H6 & _) H7 H8 _].
  unfold fields_convert. cbn [seq forallb field_converts].
  rewrite H0, H1, H2, H4, H5, H6, H7, H8. cbn [is_ok andb].
  destruct (RLPReader.isEmpty rlp.[3]); [reflexivity|].
  destruct H3 as [_ H3]. rewrite H3. reflexivity.
Qed.

(** The field that the [try] block reports is the first one at fault:
    the fields before it convert, and where the exception carries no
    comment, as the reader's own do, the reported field is the one that
    did not. *)
Lemma decode_fields_first_failure (rlp : RLP) (field : nat) (e : Exception) :
  decode_fields rlp = inl (field, e) ->
  fields_convert rlp field = true
  /\ (errinfo_comment e = None -> field_converts rlp field = false).
Proof.
  unfold decode_fields, fields_convert.
  destruct (RLPReader.isList rlp); cbn [negb];
    [|intros E; injection E as <- <-; split; [reflexivity|discriminate]].
  destruct (RLPReader.toInt 32 rlp.[0]) as [k0|n0] eqn:E0; cbn [at_field];
    [intros E; injection E as <- <-; cbn [seq forallb field_converts];
     rewrite ?E0; split; reflexivity|].
  destruct (RLPReader.toInt 32 rlp.[1]) as [k1|n1] eqn:E1; cbn [at_field];
    [intros E; injection E as <- <-; cbn [seq forallb field_converts];
     rewrite ?E0, ?E1; split; reflexivity|].
  destruct (RLPReader.toInt 32 rlp.[2]) as [k2|n2] eqn:E2; cbn [at_field];
    [intros E; injection E as <- <-; cbn [seq forallb field_converts];
     rewrite ?E0, ?E1, ?E2; split; reflexivity|].
  assert (H3 : forall a,
             (if RLPReader.isEmpty rlp.[3] then inr 0
              else at_field 3 (RLPReader.toHash 20 rlp.[3])) = inr a ->
             RLPReader.isEmpty rlp.[3]
             || is_ok (RLPReader.toHash 20 rlp.[3]) = true).
  { intros a. destruct (RLPReader.isEmpty rlp.[3]); [reflexivity|].
    destruct (RLPReader.toHash 20 rlp.[3]); [discriminate|reflexivity]. }
  destruct (if RLPReader.isEmpty rlp.[3] then inr 0
            else at_field 3 (RLPReader.toHash 20 rlp.[3]))
    as [[f3 e3]|a3] eqn:E3.
  { intros E. injection E as <- <-.
    destruct (RLPReader.isEmpty rlp.[3]) eqn:Ee; [discriminate E3|].
    destruct (RLPReader.toHash 20 rlp.[3]) as [k3|] eqn:Eh;
      [|discriminate E3].
    cbn [at_field] in E3. injection E3 as <- <-.
    cbn [seq forallb field_converts]. rewrite ?E0, ?E1, ?E2, ?Ee, ?Eh.
    split; reflexivity. }
  specialize (H3 a3 eq_refl).
  destruct (RLPReader.toInt 32 rlp.[4]) as [k4|n4] eqn:E4; cbn [at_field];
    [intros E; injection E as <- <-; cbn [seq forallb field_converts];
     rewrite ?E0, ?E1, ?E2, ?H3, ?E4; split; reflexivity|].
  destruct (RLPReader.isData rlp.[5]) eqn:E5; cbn [negb];
    [|intros E; injection E as <- <-; cbn [seq forallb field_converts];
      rewrite ?E0, ?E1, ?E2, ?H3, ?E4; split; [reflexivity|discriminate]].
  destruct (RLPReader.toInt 1 rlp.[6]) as [k6|n6] eqn:E6; cbn [at_field];
    [intros E; injection E as <- <-; cbn [seq forallb field_converts];
     rewrite ?E0, ?E1, ?E2, ?H3, ?E4, ?E5, ?E6; split; reflexivity|].
  destruct (RLPReader.toInt 32 rlp.[7]) as [k7|n7] eqn:E7; cbn [at_field];
    [intros E; injection E as <- <-; cbn [seq forallb field_converts];
     rewrite ?E0, ?E1, ?E2, ?H3, ?E4, ?E5, ?E6, ?E7; split; reflexivity|].
  destruct (RLPReader.toInt 32 rlp.[8]) as [k8|n8] eqn:E8; cbn [at_field];
    [intros E; injection E as <- <-; cbn [seq forallb field_converts];
     rewrite ?E0, ?E1, ?E2, ?H3, ?E4, ?E5, ?E6, ?E7, ?E8; split; reflexivity|].
  destruct (9 <? RLPReader.itemCount rlp)%nat; [|discriminate].
  intros E; injection E as <- <-; cbn [seq forallb field_converts].
  rewrite ?E0, ?E1, ?E2, ?H3, ?E4, ?E5, ?E6, ?E7. split; [reflexivity|discriminate].
Qed.

(** What the [try] block does to the trace, and what it throws after the
    fields have been read. *)
Lemma try_block_run (rlp : RLP) (_checkSig : CheckTransaction.t)
    (tr : list Event) (t0 : Transaction) :
  decode_fields rlp = inr t0 ->
  let h := Transaction_sha3 t0 WithoutSignature in
  let p := recover (m_vrs t0) h in
  try_block rlp _checkSig tr =
    if CheckTransaction.ge_Cheap _checkSig && negb (isValid (m_vrs t0))
    then (inl (8%nat, exception InvalidSignature), tr)
    else if CheckTransaction.is_Everything _checkSig
    then if isZero p
         then (inl (8%nat, exception InvalidSignature),
               tr ++ [EvRecover (m_vrs t0) h])
         else (inr (set_m_sender (toAddress p) t0),
               tr ++ [EvRecover (m_vrs t0) h])
    else (inr t0, tr).
Proof.
  intros E h p. unfold try_block. rewrite E.
  destruct (_ && _); [reflexivity|].
  destruct (CheckTransaction.is_Everything _checkSig); [|reflexivity].
  destruct (decode_fields_sound _ _ E) as (_ & Hs & _).
  rewrite (sender_first {| self := t0; trace := tr |} Hs). cbv zeta.
  cbn [self trace]. fold h. fold p.
  destruct (isZero p); reflexivity.
Qed.

Lemma Transaction_decode_run (_rlpData : bytes) (rlp : RLP)
    (_checkSig : CheckTransaction.t) (tr : list Event) (t0 : Transaction) :
  RLP_open _rlpData = inr rlp ->
  decode_fields rlp = inr t0 ->
  let h := Transaction_sha3 t0 WithoutSignature in
  let p := recover (m_vrs t0) h in
  let required := gasRequired_of (m_data t0) in
  let underpaid :=
    {| what := OutOfGasIntrinsic; errinfo_comment := None;
       errinfo_name := None; BadFieldError := None;
       RequirementError := Some (required, m_gas t0) |} in
  Transaction_decode _rlpData _checkSig tr =
    match _checkSig with
    | CheckTransaction.None => (inr t0, tr)
    | CheckTransaction.Cheap =>
        if negb (isValid (m_vrs t0))
        then (inl (handler 8 (exception InvalidSignature)), tr)
        else if required <=? m_gas t0
        then (inr (set_m_gasRequired required t0), tr)
        else (inl underpaid, tr)
    | CheckTransaction.Everything =>
        if negb (isValid (m_vrs t0))
        then (inl (handler 8 (exception InvalidSignature)), tr)
        else if isZero p
        then (inl (handler 8 (exception InvalidSignature)),
              tr ++ [EvRecover (m_vrs t0) h])
        else if required <=? m_gas t0
        then (inr (set_m_gasRequired required
                     (set_m_sender (toAddress p) t0)),
              tr ++ [EvRecover (m_vrs t0) h])
        else (inl underpaid, tr ++ [EvRecover (m_vrs t0) h])
    end.
Proof.
  intros Ho E h p required underpaid.
  rewrite (Transaction_decode_of_try _ _ _checkSig tr Ho).
  pose proof (try_block_run rlp _checkSig tr t0 E) as Ht. cbv zeta in Ht.
  fold h in Ht. fold p in Ht. rewrite Ht. clear Ht.
  destruct (decode_fields_sound _ _ E) as (_ & _ & Hg).
  destruct _checkSig; cbn [CheckTransaction.ge_Cheap
                            CheckTransaction.is_Everything andb].
  - rewrite (payment_check_value CheckTransaction.None t0 tr Hg). reflexivity.
  - destruct (negb (isValid (m_vrs t0))); [reflexivity|].
    rewrite (payment_check_value CheckTransaction.Cheap t0 tr Hg).
    cbv zeta. cbn [CheckTransaction.ge_Cheap]. fold required.
    destruct (required <=? m_gas t0); reflexivity.
  - destruct (negb (isValid (m_vrs t0))); [reflexivity|].
    destruct (isZero p); [reflexivity|].
    rewrite (payment_check_value CheckTransaction.Everything
               (set_m_sender (toAddress p) t0) _ Hg).
    cbv zeta. cbn [CheckTransaction.ge_Cheap set_m_sender m_data m_gas].
    fold required. destruct (required <=? m_gas t0); reflexivity.
Qed.

(** X6.  The diagnostics of a refused transaction.  An exception of the
    reader on bytes it does not open leaves the constructor as it is,
    with no name and no field.  An exception that leaves the [try] block
    is named "invalid transaction format" and carries the index of a
    field, at most 8; every field before it converts, and where the
    exception is a [BadRLP] without a comment, which is how a conversion
    fails, the field itself is the one that does not convert.  On bytes
    that the reader opens the only exception without a field is
    [OutOfGasIntrinsic], which carries the gas required and the smaller
    gas supplied. *)
Theorem failing_field_reported (_rlpData : bytes)
    (_checkSig : CheckTransaction.t) (tr tr' : list Event) (e : Exception) :
  Transaction_decode _rlpData _checkSig tr = (inl e, tr') ->
  match RLP_open _rlpData with
  | inl k => e = exception k /\ tr' = tr
  | inr rlp =>
      match BadFieldError e with
      | Some field =>
          errinfo_name e = Some "invalid transaction format"%string
          /\ (field <= 8)%nat
          /\ fields_convert rlp field = true
          /\ (what e = BadRLP -> errinfo_comment e = None ->
              field_converts rlp field = false)
          /\ what e <> OutOfGasIntrinsic
      | None =>
          what e = OutOfGasIntrinsic
          /\ exists required supplied : Z,
               RequirementError e = Some (required, supplied)
               /\ supplied < required
      end
  end.
Proof.
  intros Hd. destruct (RLP_open _rlpData) as [k|rlp] eqn:Ho.
  { rewrite (Transaction_decode_unreadable _ _ _checkSig tr Ho) in Hd.
    injection Hd as <- <-. split; reflexivity. }
  destruct (decode_fields rlp) as [[f e0]|t0] eqn:E.
  - rewrite (Transaction_decode_failed_fields _ _ _checkSig tr _ _ Ho E) in Hd.
    injection Hd as <- <-.
    cbn [handler BadFieldError errinfo_name errinfo_comment what].
    destruct (decode_fields_first_failure _ _ _ E) as (Hc & Hb).
    destruct (decode_fields_error _ _ _ E) as (Hk & Hf).
    split; [reflexivity|]. split; [exact Hf|]. split; [exact Hc|]. split.
    + intros _ Hn. exact (Hb Hn).
    + rewrite Hk. discriminate.
  - pose proof (Transaction_decode_run _ _ _checkSig tr t0 Ho E) as Hr.
    cbv zeta in Hr. rewrite Hr in Hd. clear Hr.
    pose proof (decode_fields_converts _ _ E) as Hc9.
    assert (Hc8 : fields_convert rlp 8 = true).
    { unfold fields_convert in *. cbn [seq forallb] in *.
      repeat (apply andb_prop in Hc9; destruct Hc9 as [? Hc9]).
      repeat match goal with
             | H : field_converts _ _ = true |- _ => rewrite H; clear H
             end.
      reflexivity. }
    destruct _checkSig; [discriminate Hd| |];
      destruct (negb (isValid (m_vrs t0)));
      try (injection Hd as <- <-;
           cbn [handler exception BadFieldError errinfo_name what];
           repeat split; try assumption; try lia; discriminate);
      try (destruct (isZero _);
           [injection Hd as <- <-;
            cbn [handler exception BadFieldError errinfo_name what];
            repeat split; try assumption; try lia; discriminate|]);
      (destruct (gasRequired_of (m_data t0) <=? m_gas t0) eqn:Eg;
       [discriminate Hd|]);
      injection Hd as <- <-; cbn [BadFieldError what RequirementError];
      (split; [reflexivity|]); eexists; eexists;
      (split; [reflexivity|]); apply Z.leb_gt; exact Eg.
Qed.

(** X7.  Under [None] and [Cheap] the constructor runs no signature
    recovery: the trace is as it was, whether it returns or throws, and a
    returned transaction has an empty sender cache. *)
Theorem recovery_only_under_Everything (_rlpData : bytes) (rlp : RLP)
    (_checkSig : CheckTransaction.t) (tr : list Event) :
  RLP_open _rlpData = inr rlp ->
  CheckTransaction.is_Everything _checkSig = false ->
  snd (Transaction_decode _rlpData _checkSig tr) = tr
  /\ forall t : Transaction,
       fst (Transaction_decode _rlpData _checkSig tr) = inr t ->
       m_sender t = 0.
Proof.
  intros Ho Hm.
  destruct (decode_fields rlp) as [[f e0]|t0] eqn:E.
  - rewrite (Transaction_decode_failed_fields _ _ _checkSig tr _ _ Ho E).
    split; [reflexivity|]. intros t H. discriminate H.
  - pose proof (Transaction_decode_run _ _ _checkSig tr t0 Ho E) as Hr.
    cbv zeta in Hr. rewrite Hr. clear Hr.
    destruct (decode_fields_sound _ _ E) as (_ & Hs & _).
    destruct _checkSig; [| |discriminate Hm].
    + split; [reflexivity|]. intros t H. injection H as <-. exact Hs.
    + destruct (negb (isValid (m_vrs t0)));
        [split; [reflexivity|intros t H; discriminate H]|].
      destruct (_ <=? _);
        [|split; [reflexivity|intros t H; discriminate H]].
      split; [reflexivity|]. intros t H. injection H as <-. exact Hs.
Qed.

(** X8.  A transaction that the constructor returns under [Everything]
    has its sender: the constructor has run the recovery exactly once,
    the address is cached in [m_sender], and from then on [sender] never
    throws on the object and agrees with [safeSender] and with the
    cache. *)
Theorem Everything_leaves_sender (_rlpData : bytes) (rlp : RLP)
    (tr tr' : list Event) (t : Transaction) :
  RLP_open _rlpData = inr rlp ->
  Transaction_decode _rlpData CheckTransaction.Everything tr = (inr t, tr') ->
  let h := Transaction_sha3 t WithoutSignature in
  tr' = tr ++ [EvRecover (m_vrs t) h]
  /\ recover (m_vrs t) h <> 0
  /\ m_sender t = toAddress (recover (m_vrs t) h)
  /\ forall tr'' : list Event,
       fst (sender {| self := t; trace := tr'' |}) = inr (m_sender t)
       /\ fst (safeSender {| self := t; trace := tr'' |}) = inr (m_sender t).
Proof.
  intros Ho Hd h.
  destruct (decode_fields rlp) as [[f e0]|t0] eqn:E.
  - rewrite (Transaction_decode_failed_fields _ _ _ tr _ _ Ho E) in Hd.
    discriminate Hd.
  - pose proof (Transaction_decode_run _ _ CheckTransaction.Everything
                  tr t0 Ho E) as Hr.
    cbv zeta in Hr. rewrite Hr in Hd. clear Hr.
    set (h0 := Transaction_sha3 t0 WithoutSignature) in *.
    set (p := recover (m_vrs t0) h0) in *.
    destruct (negb (isValid (m_vrs t0))); [discriminate Hd|].
    destruct (isZero p) eqn:Ep; [discriminate Hd|].
    destruct (_ <=? _); [|discriminate Hd].
    injection Hd as <- <-.
    set (t1 := set_m_gasRequired _ _).
    assert (Hsame : same_message t0 t1).
    { eapply same_message_trans;
        [apply same_message_set_m_sender|apply same_message_set_m_gasRequired]. }
    assert (Eh : h = h0) by (apply Transaction_sha3_same; exact Hsame).
    assert (Ev : m_vrs t1 = m_vrs t0) by reflexivity.
    assert (Hp : recover (m_vrs t1) h = p) by (rewrite Eh, Ev; reflexivity).
    assert (Hnz : p <> 0) by (apply Z.eqb_neq; exact Ep).
    rewrite Hp, Eh. split; [reflexivity|]. split; [exact Hnz|].
    split; [reflexivity|]. intros tr''.
    assert (Hs : fst (sender {| self := t1; trace := tr'' |})
                 = inr (m_sender t1)).
    { change (m_sender t1) with (toAddress p).
      apply sender_value; [exact Hp|exact Hnz|].
      right. reflexivity. }
    split; [exact Hs|].
    unfold safeSender, try_catch.
    destruct (sender {| self := t1; trace := tr'' |}) as [[e|a] w1];
      [discriminate Hs|exact Hs].
Qed.

(** X9.  The checking modes are nested: what [Everything] accepts,
    [Cheap] accepts, and what [Cheap] accepts, [None] accepts, each time
    with the same message and with no recovery in the weaker mode. *)
Theorem checking_modes_nested (_rlpData : bytes) (rlp : RLP)
    (tr tr' : list Event) (t : Transaction) :
  RLP_open _rlpData = inr rlp ->
  (Transaction_decode _rlpData CheckTransaction.Everything tr = (inr t, tr') ->
   exists t1 : Transaction,
     Transaction_decode _rlpData CheckTransaction.Cheap tr = (inr t1, tr)
     /\ same_message t t1)
  /\ (Transaction_decode _rlpData CheckTransaction.Cheap tr = (inr t, tr') ->
      exists t1 : Transaction,
        Transaction_decode _rlpData CheckTransaction.None tr = (inr t1, tr)
        /\ same_message t t1).
Proof.
  intros Ho.
  destruct (decode_fields rlp) as [[f e0]|t0] eqn:E.
  - split; intros Hd;
      rewrite (Transaction_decode_failed_fields _ _ _ tr _ _ Ho E) in Hd;
      discriminate Hd.
  - pose proof (Transaction_decode_run _ _ CheckTransaction.Everything
                  tr t0 Ho E) as He.
    pose proof (Transaction_decode_run _ _ CheckTransaction.Cheap
                  tr t0 Ho E) as Hc.
    pose proof (Transaction_decode_run _ _ CheckTransaction.None
                  tr t0 Ho E) as Hn.
    cbv zeta in He, Hc, Hn. rewrite He, Hc, Hn. clear He Hc Hn.
    destruct (negb (isValid (m_vrs t0)));
      [split; intros Hd; discriminate Hd|].
    destruct (gasRequired_of (m_data t0) <=? m_gas t0).
    + split.
      * destruct (isZero _); [intros Hd; discriminate Hd|].
        intros Hd. injection Hd as <- <-.
        eexists. split; [reflexivity|].
        unfold same_message. cbn. repeat split.
      * intros Hd. injection Hd as <- <-.
        exists t0. split; [reflexivity|].
        unfold same_message. cbn. repeat split.
    + split.
      * destruct (isZero _); intros Hd; discriminate Hd.
      * intros Hd. discriminate Hd.
Qed.

Lemma same_message_sym (t t' : Transaction) :
  same_message t t' -> same_message t' t.
Proof.
  intros (A1 & A2 & A3 & A4 & A5 & A6 & A7 & A8).
  unfold same_message. rewrite A1, A2, A3, A4, A5, A6, A7, A8.
  repeat split.
Qed.

(** X10.  What the constructor returns is a proper transaction: never the
    null transaction, the numbers within 256 bits, the recipient within
    160 bits and null for a creation, [r] and [s] within 256 bits and [v]
    one byte. *)
Theorem decoded_is_well_formed (_rlpData : bytes) (rlp : RLP)
    (_checkSig : CheckTransaction.t) (tr tr' : list Event) (t : Transaction) :
  RLP_open _rlpData = inr rlp ->
  Transaction_decode _rlpData _checkSig tr = (inr t, tr') ->
  m_type t <> NullTransaction
  /\ Transaction_wf t
  /\ (m_type t = ContractCreation -> m_receiveAddress t = ZeroAddress)
  /\ 0 <= SignatureStruct.r (m_vrs t) < 2 ^ 256
  /\ 0 <= SignatureStruct.s (m_vrs t) < 2 ^ 256
  /\ 0 <= SignatureStruct.v (m_vrs t) < 256.
Proof.
  intros Ho Hd.
  destruct (Transaction_decode_sound _ _ _ _ _ _ Ho Hd) as (t0 & E & Hs).
  apply decode_fields_sound in E as (D & _).
  pose proof (decoded_from_same _ _ _ Hs D) as D'. clear D Hs t0.
  destruct D' as [Hl H0 H1 H2 H3 H4 H5 _ (vw & H6 & Hv) H7 H8 _].
  apply toInt_range in H0, H1, H2, H4, H7, H8.
  change (256 ^ Z.of_nat 32) with (2 ^ 256) in *.
  assert (Hto : m_type t <> NullTransaction
                /\ 0 <= m_receiveAddress t < 2 ^ 160
                /\ (m_type t = ContractCreation ->
                    m_receiveAddress t = ZeroAddress)).
  { destruct (RLPReader.isEmpty rlp.[3]).
    - destruct H3 as [Ht Ha]. rewrite Ht, Ha.
      split; [discriminate|]. split; [|reflexivity].
      split; [apply Z.le_refl|reflexivity].
    - destruct H3 as [Ht Ha]. rewrite Ht.
      split; [discriminate|]. split; [|discriminate].
      unfold RLPReader.toHash in Ha.
      destruct rlp.[3] as [[p|l]|]; try discriminate Ha.
      destruct (Nat.eqb_spec (length p) 20) as [Hlen|]; [|discriminate Ha].
      injection Ha as <-. pose proof (fromBigEndian_range p) as Hr.
      rewrite Hlen in Hr. exact Hr. }
  destruct Hto as (Hn & Ha & Hc).
  split; [exact Hn|]. split; [constructor; assumption|].
  split; [exact Hc|]. split; [exact H7|]. split; [exact H8|].
  rewrite Hv. apply Z.mod_pos_bound. reflexivity.
Qed.

(** X11.  How a refused transaction is classified.  On bytes that the
    reader opens, the exceptions of the constructor fall into three of
    the classes of [toTransactionException], never into [Unknown]:
    [BadRLP], and under [Cheap] and [Everything] also [InvalidSignature]
    and [OutOfGasIntrinsic].  On bytes that the reader does not open the
    exception is the reader's own, as it was thrown.  What the handler
    attaches does not change the class. *)
Theorem refusal_classified (_rlpData : bytes)
    (_checkSig : CheckTransaction.t) (tr tr' : list Event) (e : Exception) :
  Transaction_decode _rlpData _checkSig tr = (inl e, tr') ->
  (forall (field : nat) (e0 : Exception),
      toTransactionException (handler field e0) = toTransactionException e0)
  /\ match RLP_open _rlpData with
     | inl k => e = exception k
     | inr _ =>
         toTransactionException e = TransactionException.BadRLP
           /\ what e = BadRLP
         \/ toTransactionException e = TransactionException.InvalidSignature
           /\ what e = InvalidSignature
           /\ CheckTransaction.ge_Cheap _checkSig = true
         \/ toTransactionException e = TransactionException.OutOfGasIntrinsic
           /\ what e = OutOfGasIntrinsic
           /\ CheckTransaction.ge_Cheap _checkSig = true
     end.
Proof.
  intros Hd. split; [reflexivity|].
  destruct (RLP_open _rlpData) as [k|rlp] eqn:Ho.
  { rewrite (Transaction_decode_unreadable _ _ _checkSig tr Ho) in Hd.
    injection Hd as <- <-. reflexivity. }
  destruct (decode_fields rlp) as [[f e0]|t0] eqn:E.
  - rewrite (Transaction_decode_failed_fields _ _ _checkSig tr _ _ Ho E) in Hd.
    injection Hd as <- <-.
    pose proof (proj1 (decode_fields_error _ _ _ E)) as Hk.
    left. unfold toTransactionException. cbn [handler what].
    rewrite Hk. split; reflexivity.
  - pose proof (Transaction_decode_run _ _ _checkSig tr t0 Ho E) as Hr.
    cbv zeta in Hr. rewrite Hr in Hd. clear Hr.
    destruct _checkSig; [discriminate Hd| |];
      destruct (negb (isValid (m_vrs t0)));
      try (injection Hd as <- <-; right; left; repeat split);
      try (destruct (isZero _);
           [injection Hd as <- <-; right; left; repeat split|]);
      (destruct (gasRequired_of (m_data t0) <=? m_gas t0);
       [discriminate Hd|]);
      injection Hd as <- <-; right; right; repeat split.
Qed.

(** ** Reading and writing back *)

Lemma byte_of_Z_low (x : Z) (b : byte) : byte_of_Z (x * 256 + byte_Z b) = b.
Proof.
  rewrite <- (byte_of_Z_byte_Z b) at 2. unfold byte_of_Z.
  pose proof (byte_Z_range b) as Hb.
  rewrite Z.add_comm, Z.mod_add by lia. reflexivity.
Qed.

Lemma toBigEndian_fromBigEndian (p : bytes) :
  toBigEndian (length p) (fromBigEndian p) = p.
Proof.
  induction p as [|b p IH] using rev_ind; [reflexivity|].
  rewrite length_app, Nat.add_1_r, fromBigEndian_snoc. cbn [toBigEndian length].
  pose proof (byte_Z_range b) as Hb.
  replace ((fromBigEndian p * 256 + byte_Z b) / 256) with (fromBigEndian p)
    by (rewrite Z.add_comm, Z.div_add by lia;
        rewrite Z.div_small by lia; reflexivity).
  rewrite IH, byte_of_Z_low. reflexivity.
Qed.

Lemma bytesRequired_fromBigEndian (b : byte) (p : bytes) :
  byte_Z b <> 0 -> bytesRequired (fromBigEndian (b :: p)) = S (length p).
Proof.
  intros Hb. pose proof (byte_Z_range b) as Hr.
  pose proof (fromBigEndian_range (b :: p)) as Hv. cbn [length] in Hv.
  pose proof (fromBigEndian_app [b] p) as Ha. cbn [app] in Ha.
  assert (Hb1 : fromBigEndian [b] = byte_Z b)
    by (unfold fromBigEndian; cbn; lia).
  rewrite Hb1 in Ha.
  pose proof (fromBigEndian_range p) as Hp.
  assert (Hpow : 0 < 256 ^ Z.of_nat (length p))
    by (apply Z.pow_pos_nonneg; lia).
  assert (Hlow : 256 ^ Z.of_nat (length p) <= fromBigEndian (b :: p)) by nia.
  pose proof (bytesRequired_le (fromBigEndian (b :: p)) (S (length p))
                ltac:(lia)) as Hle.
  pose proof (bytesRequired_bound (fromBigEndian (b :: p)) ltac:(lia)) as Hbd.
  destruct (Nat.eq_dec (bytesRequired (fromBigEndian (b :: p))) (S (length p)))
    as [E|E]; [exact E|].
  exfalso.
  assert (Hk : (bytesRequired (fromBigEndian (b :: p)) <= length p)%nat) by lia.
  assert (256 ^ Z.of_nat (bytesRequired (fromBigEndian (b :: p)))
          <= 256 ^ Z.of_nat (length p))
    by (apply Z.pow_le_mono_r; lia).
  lia.
Qed.

(** A raw string with no leading zero byte is the compact form of the
    number it holds. *)
Lemma toCompactBigEndian_fromBigEndian (p : bytes) :
  RLPReader.isInt (Some (RLPData p)) = true ->
  toCompactBigEndian (fromBigEndian p) = p.
Proof.
  destruct p as [|b p]; [reflexivity|].
  cbn [RLPReader.isInt]. intros H.
  apply negb_true_iff, Z.eqb_neq in H.
  unfold toCompactBigEndian. rewrite (bytesRequired_fromBigEndian b p H).
  exact (toBigEndian_fromBigEndian (b :: p)).
Qed.

Lemma toInt_inv (n : nat) (it : RLPItem) (v : Z) :
  RLPReader.toInt n (Some it) = inr v ->
  it = RLPData (toCompactBigEndian v).
Proof.
  unfold RLPReader.toInt. destruct it as [p|l]; [|discriminate].
  destruct (RLPReader.isInt (Some (RLPData p))) eqn:Ei; cbn [negb];
    [|discriminate].
  destruct (n <? length p)%nat; [discriminate|].
  intros E. injection E as <-.
  rewrite (toCompactBigEndian_fromBigEndian p Ei). reflexivity.
Qed.

Lemma toHash_inv (n : nat) (it : RLPItem) (a : Z) :
  RLPReader.toHash n (Some it) = inr a ->
  it = RLPData (toBigEndian n a).
Proof.
  unfold RLPReader.toHash. destruct it as [p|l]; [|discriminate].
  destruct (Nat.eqb_spec (length p) n) as [Hl|]; [|discriminate].
  intros E. injection E as <-. subst n.
  rewrite toBigEndian_fromBigEndian. reflexivity.
Qed.

Lemma toInt_null (n : nat) (v : Z) : RLPReader.toInt n None = inr v -> False.
Proof. discriminate. Qed.

(** The nine items that decode to [t] are the nine items that [t] writes,
    unless field 3 is the empty list, which comes back as the empty
    string, or the signature byte is below 27, which comes back 256
    higher. *)
Lemma decoded_from_items (items : list RLPItem) (t : Transaction) (v_wire : Z) :
  decoded_from (Some (RLPList items)) t ->
  nth_error items 3 <> Some (RLPList []) ->
  RLPReader.toInt 1 (nth_error items 6) = inr v_wire ->
  27 <= v_wire ->
  unsigned_items t ++ signature_items t = items.
Proof.
  intros [_ H0 H1 H2 H3 H4 H5 Hd (vw & H6 & Hv) H7 H8 Hc] Hne Hw Hge.
  cbn [RLPReader.index RLPReader.itemCount] in *.
  rewrite Hw in H6. injection H6 as <-.
  destruct items as [|i0 [|i1 [|i2 [|i3 [|i4 [|i5 [|i6 [|i7 [|i8 rest]]]]]]]]];
    cbn [nth_error] in *;
    try (exfalso; exact (toInt_null _ _ H8)).
  destruct rest as [|i9 rest]; [|cbn [length] in Hc; lia].
  apply toInt_inv in H0, H1, H2, H4, H7, H8.
  pose proof (toInt_range _ _ _ Hw) as Hr.
  change (256 ^ Z.of_nat 1) with 256 in Hr.
  apply toInt_inv in Hw.
  assert (Ev : SignatureStruct.v (m_vrs t) + 27 = v_wire)
    by (rewrite Hv, Z.mod_small by lia; lia).
  assert (E5 : i5 = RLPData (m_data t)).
  { destruct i5 as [p|l]; [|discriminate H5]. cbn in Hd. rewrite Hd.
    reflexivity. }
  assert (E3 : recipient_or_empty t = i3).
  { unfold recipient_or_empty.
    destruct (RLPReader.isEmpty (Some i3)) eqn:Ee.
    - destruct H3 as [-> _].
      destruct i3 as [[|b p]|[|x l]]; try discriminate Ee;
        [reflexivity|]. exfalso. apply Hne. reflexivity.
    - destruct H3 as [-> Ha]. apply toHash_inv in Ha. symmetry. exact Ha. }
  unfold unsigned_items, signature_items. cbn [app].
  rewrite E3, Ev, <- H0, <- H1, <- H2, <- H4, <- E5, <- Hw, <- H7, <- H8.
  reflexivity.
Qed.

(** X12.  Reading and writing back.  If the reader opens the bytes as a
    list, the constructor returns a transaction, field 3 is not the empty
    list and the signature byte on the wire is at least 27, then
    [streamRLP] with the signature writes that very list again. *)
Theorem decode_streamRLP_round_trip (_rlpData : bytes)
    (items : list RLPItem) (_checkSig : CheckTransaction.t)
    (tr tr' : list Event) (t : Transaction) (v_wire : Z) (_s : RLPStream) :
  RLP_open _rlpData = inr (Some (RLPList items)) ->
  Transaction_decode _rlpData _checkSig tr = (inr t, tr') ->
  nth_error items 3 <> Some (RLPList []) ->
  RLPReader.toInt 1 (nth_error items 6) = inr v_wire ->
  27 <= v_wire ->
  streamRLP t _s WithSignature = append (RLPList items) _s.
Proof.
  intros Ho Hd Hne Hw Hge.
  destruct (Transaction_decode_sound _ _ _ _ _ _ Ho Hd) as (t0 & E & Hs).
  apply decode_fields_sound in E as (D & _).
  pose proof (decoded_from_same _ _ _ Hs D) as D'.
  assert (Hn : m_type t <> NullTransaction).
  { pose proof (df_to _ _ D') as H3.
    destruct (RLPReader.isEmpty _); destruct H3 as [-> _]; discriminate. }
  rewrite (streamRLP_signed t _s Hn).
  rewrite (decoded_from_items items t v_wire D' Hne Hw Hge). reflexivity.
Qed.

(** ** Several transactions in one list *)

Lemma streamRLP_live (t : Transaction) (_s : RLPStream)
    (_sig : IncludeSignature) :
  is_live t = true -> streamRLP t _s _sig = append (wire_item _sig t) _s.
Proof.
  intros H.
  assert (Hn : m_type t <> NullTransaction)
    by (unfold is_live in H; destruct (m_type t); discriminate).
  unfold wire_item. destruct _sig.
  - apply streamRLP_signed. exact Hn.
  - apply streamRLP_unsigned. exact Hn.
Qed.

Lemma streamRLP_not_live (t : Transaction) (_s : RLPStream)
    (_sig : IncludeSignature) :
  is_live t = false -> streamRLP t _s _sig = _s.
Proof.
  intros H. unfold streamRLP, is_live in *.
  destruct (m_type t); [reflexivity|discriminate|discriminate].
Qed.

Lemma stream_all_open (_sig : IncludeSignature) (ts : list Transaction) :
  forall (n : nat) (acc out : list RLPItem)
         (rest : list (nat * list RLPItem)),
    (length (filter is_live ts) < n)%nat ->
    fold_left (fun s t => streamRLP t s _sig) ts
      {| m_out := out; m_listStack := (n, acc) :: rest |}
    = {| m_out := out;
         m_listStack :=
           ((n - length (filter is_live ts))%nat,
            acc ++ map (wire_item _sig) (filter is_live ts)) :: rest |}.
Proof.
  induction ts as [|t ts IH]; intros n acc out rest Hn; cbn [fold_left filter].
  - cbn [length map]. rewrite Nat.sub_0_r, app_nil_r. reflexivity.
  - destruct (is_live t) eqn:El.
    + cbn [filter] in Hn. rewrite El in Hn. cbn [length map] in *.
      rewrite (streamRLP_live t _ _sig El).
      destruct n as [|[|n]]; [lia|lia|].
      unfold append. cbn [m_listStack m_out noteAppended].
      rewrite (IH (S n) _ out rest ltac:(lia)).
      rewrite <- app_assoc. reflexivity.
    + cbn [filter] in Hn. rewrite El in Hn.
      rewrite (streamRLP_not_live t _ _sig El). apply IH. exact Hn.
Qed.

Lemma stream_none_live (_sig : IncludeSignature) (ts : list Transaction)
    (_s : RLPStream) :
  filter is_live ts = [] ->
  fold_left (fun s t => streamRLP t s _sig) ts _s = _s.
Proof.
  revert _s. induction ts as [|t ts IH]; intros _s H; [reflexivity|].
  cbn [fold_left filter] in *. destruct (is_live t) eqn:El; [discriminate H|].
  rewrite (streamRLP_not_live t _ _sig El). apply IH. exact H.
Qed.

Lemma stream_all_closed (_sig : IncludeSignature) (ts : list Transaction) :
  forall (acc out : list RLPItem) (rest : list (nat * list RLPItem)),
    filter is_live ts <> [] ->
    fold_left (fun s t => streamRLP t s _sig) ts
      {| m_out := out;
         m_listStack := (length (filter is_live ts), acc) :: rest |}
    = append (RLPList (acc ++ map (wire_item _sig) (filter is_live ts)))
        {| m_out := out; m_listStack := rest |}.
Proof.
  induction ts as [|t ts IH]; intros acc out rest Hne;
    cbn [fold_left filter] in *; [contradiction|].
  destruct (is_live t) eqn:El.
  - cbn [length map]. rewrite (streamRLP_live t _ _sig El).
    destruct (filter is_live ts) as [|t' live] eqn:Ef.
    + cbn [length map]. unfold append at 1.
      cbn [m_listStack m_out noteAppended].
      rewrite stream_none_live by exact Ef. reflexivity.
    + unfold append at 1. cbn [length m_listStack m_out noteAppended].
      change (S (length live)) with (length (t' :: live)).
      rewrite <- Ef in *. rewrite IH by (rewrite Ef; discriminate).
      rewrite <- app_assoc. reflexivity.
  - rewrite (streamRLP_not_live t _ _sig El). apply IH. exact Hne.
Qed.

(** X13.  Transactions written into an announced list.  After
    [appendList] for as many items as there are transactions, streaming
    them one after the other completes the list, one item for each
    transaction in order, when none of them is the null transaction.
    When some are, the list is not completed: it holds the items of the
    others and goes on waiting for as many items as there were null
    transactions. *)
Theorem streamRLP_into_list (_sig : IncludeSignature)
    (ts : list Transaction) (_s : RLPStream) :
  fold_left (fun s t => streamRLP t s _sig) ts (appendList (length ts) _s)
  = if forallb is_live ts
    then append (RLPList (map (wire_item _sig) ts)) _s
    else {| m_out := m_out _s;
            m_listStack :=
              ((length ts - length (filter is_live ts))%nat,
               map (wire_item _sig) (filter is_live ts))
              :: m_listStack _s |}.
Proof.
  assert (Hlen : (length (filter is_live ts) <= length ts)%nat)
    by apply filter_length_le.
  destruct (forallb is_live ts) eqn:Ea.
  - assert (Ef : filter is_live ts = ts).
    { clear Hlen. induction ts as [|t ts IH]; [reflexivity|].
      cbn [forallb filter] in *. apply andb_prop in Ea as [-> Ea].
      rewrite (IH Ea). reflexivity. }
    destruct ts as [|t ts]; [reflexivity|].
    pose proof (stream_all_closed _sig (t :: ts) [] (m_out _s)
                  (m_listStack _s)) as H.
    rewrite Ef in H. specialize (H ltac:(discriminate)).
    unfold appendList. cbn [length app] in *. rewrite H.
    destruct _s; reflexivity.
  - assert (Hlt : (length (filter is_live ts) < length ts)%nat).
    { clear Hlen. induction ts as [|t ts IH]; [discriminate Ea|].
      cbn [forallb filter length] in *.
      pose proof (filter_length_le is_live ts) as Hle.
      destruct (is_live t); cbn [andb length] in *; [|lia].
      specialize (IH Ea). lia. }
    destruct ts as [|t ts]; [cbn [length] in Hlt; lia|].
    pose proof (stream_all_open _sig (t :: ts) (length (t :: ts)) []
                  (m_out _s) (m_listStack _s) Hlt) as H.
    unfold appendList. cbn [length app] in *. exact H.
Qed.

End TransactionModel.

(** * Printing of the exception codes *)

Lemma append_cancel_l (a b c : String.string) :
  String.append a b = String.append a c -> b = c.
Proof.
  induction a as [|ch a IH]; cbn [String.append]; intros H.
  - exact H.
  - injection H as H. exact (IH H).
Qed.

(** X14.  [operator<<] writes a different name for each of the fourteen
    codes: two codes that leave the same text on the same stream are the
    same code, and only [Unknown] is written by the [default] branch. *)
Theorem printed_name_identifies_code (_out : String.string)
    (a b : TransactionException.t) :
  print_TransactionException _out a = print_TransactionException _out b <->
  a = b.
Proof.
  split.
  - intros H. apply append_cancel_l in H.
    destruct a; destruct b; try reflexivity; discriminate H.
  - intros ->. reflexivity.
Qed.

(** * The listener of the test [topic] *)

Section ListenerProperties.

Import WhisperTopicTest.

Local Open Scope Z_scope.

Lemma to_unsigned_to_int (u : Z) :
  0 <= u < 2 ^ 32 -> to_unsigned (to_int u) = u.
Proof.
  intros Hu. unfold to_unsigned, to_int.
  destruct (u <? 2 ^ 31).
  - apply Z.mod_small. exact Hu.
  - replace (u - 2 ^ 32) with (u + (-1) * 2 ^ 32) by ring.
    rewrite Z_mod_plus_full. apply Z.mod_small. exact Hu.
Qed.

Lemma existsb_eqb_In (x : Z) (l : list Z) :
  existsb (Z.eqb x) l = true <-> In x l.
Proof.
  rewrite existsb_exists. split.
  - intros [y [Hy He]]. apply Z.eqb_eq in He. subst y. exact Hy.
  - intros H. exists x. split; [exact H | apply Z.eqb_refl].
Qed.

Lemma on_message_inv (st : Listener) (p : Z) :
  0 <= p < 2 ^ 32 -> listener_inv st ->
  listener_inv (on_message st p) /\
  (forall x, In x (received (on_message st p)) <->
             x = p \/ In x (received st)) /\
  last (on_message st p) = to_int p.
Proof.
  intros Hp [Hn [Hr Hf]]. unfold on_message.
  rewrite (to_unsigned_to_int p Hp).
  destruct (existsb (Z.eqb p) (received st)) eqn:E.
  - apply existsb_eqb_In in E. cbn [received last result].
    split; [|split].
    + split; [exact Hn | split; [exact Hr | exact Hf]].
    + intros x. split.
      * intros H. right. exact H.
      * intros [-> | H]; [exact E | exact H].
    + reflexivity.
  - assert (~ In p (received st)) as Hnot.
    { intros H. apply existsb_eqb_In in H. rewrite H in E. discriminate E. }
    cbn [received last result]. split; [|split].
    + split; [|split].
      * constructor; [exact Hnot | exact Hn].
      * rewrite Hr. unfold sum. cbn [fold_right].
        rewrite Zplus_mod_idemp_l. rewrite Z.add_comm. reflexivity.
      * constructor; [exact Hp | exact Hf].
    + intros x. cbn [In]. split.
      * intros [H | H]; [left; symmetry; exact H | right; exact H].
      * intros [H | H]; [left; symmetry; exact H | right; exact H].
    + reflexivity.
Qed.

Lemma on_batch_inv (l : list Z) : forall (st : Listener),
  Forall (fun x => 0 <= x < 2 ^ 32) l -> listener_inv st ->
  listener_inv (fold_left on_message l st) /\
  (forall x, In x (received (fold_left on_message l st)) <->
             In x l \/ In x (received st)).
Proof.
  induction l as [|p l IH]; intros st Hl Hi.
  - cbn [fold_left]. split; [exact Hi|].
    intros x. cbn [In]. split.
    + intros H. right. exact H.
    + intros [[] | H]. exact H.
  - cbn [fold_left]. inversion Hl as [|p' l' Hp Hl']; subst.
    destruct (on_message_inv st p Hp Hi) as [Hi1 [Hm1 _]].
    destruct (IH (on_message st p) Hl' Hi1) as [Hi2 Hm2].
    split; [exact Hi2|].
    intros x. rewrite (Hm2 x), (Hm1 x). cbn [In]. split.
    + intros [H | [H | H]].
      * left. right. exact H.
      * left. left. symmetry. exact H.
      * right. exact H.
    + intros [[H | H] | H].
      * right. left. symmetry. exact H.
      * left. exact H.
      * right. right. exact H.
Qed.

Lemma start_inv : listener_inv start.
Proof.
  split; [constructor | split; [reflexivity | constructor]].
Qed.

Lemma delivered_S (watch : nat -> list Z) (i k : nat) :
  delivered watch i (S k) = watch i ++ delivered watch (S i) k.
Proof. reflexivity. Qed.

Lemma delivered_In (watch : nat -> list Z) (x : Z) (i k : nat) :
  In x (delivered watch i k) <->
  exists j, (i <= j < i + k)%nat /\ In x (watch j).
Proof.
  unfold delivered. rewrite in_flat_map. split.
  - intros [j [Hj Hx]]. apply in_seq in Hj. exists j. split; assumption.
  - intros [j [Hj Hx]]. exists j. split; [apply in_seq; exact Hj | exact Hx].
Qed.

(** The loop is a number of complete polls: it stops before the 200th
    only behind a poll that left [last] at 81 or more. *)
Lemma listen_polls (watch : nat -> list Z) (rounds : nat) :
  forall (i : nat) (st : Listener),
  exists k, (k <= rounds)%nat /\
    listen watch rounds i st =
      fold_left on_message (delivered watch i k) st /\
    ((k < rounds)%nat -> 81 <= last (listen watch rounds i st)).
Proof.
  induction rounds as [|r IH]; intros i st.
  - exists 0%nat. split; [lia | split; [reflexivity | lia]].
  - cbn [listen]. destruct (last st <? 81) eqn:E.
    + destruct (IH (S i) (fold_left on_message (watch i) st))
        as [k [Hk [He Hl]]].
      exists (S k). split; [lia|]. split.
      * rewrite delivered_S, fold_left_app. exact He.
      * intros H. apply Hl. lia.
    + exists 0%nat. split; [lia|]. split; [reflexivity|].
      intros _. apply Z.ltb_ge in E. exact E.
Qed.

Lemma listen_done (watch : nat -> list Z) (rounds i : nat) (st : Listener) :
  81 <= last st -> listen watch rounds i st = st.
Proof.
  intros H. destruct rounds as [|r]; [reflexivity|].
  cbn [listen]. apply Z.ltb_ge in H. rewrite H. reflexivity.
Qed.

Lemma batch_last (l : list Z) : forall (st : Listener) (bound : Z),
  last st < bound -> (forall x, In x l -> to_int x < bound) ->
  last (fold_left on_message l st) < bound.
Proof.
  induction l as [|p l IH]; intros st bound Hs Hl.
  - exact Hs.
  - cbn [fold_left]. apply IH.
    + assert (last (on_message st p) = to_int p) as ->.
      { unfold on_message. destruct (existsb _ _); reflexivity. }
      apply Hl. left. reflexivity.
    + intros x Hx. apply Hl. right. exact Hx.
Qed.

Lemma batch_last_snoc (l : list Z) (p : Z) (st : Listener) :
  last (fold_left on_message (l ++ [p]) st) = to_int p.
Proof.
  rewrite fold_left_app. cbn [fold_left].
  unfold on_message. destruct (existsb _ _); reflexivity.
Qed.

(** When 81 closes the poll number [k] and the polls before it stay
    below, the loop makes exactly the polls up to [k]. *)
Lemma listen_stops_at (watch : nat -> list Z) (k : nat) (before : list Z) :
  watch k = before ++ [81] ->
  forall (d i rounds : nat) (st : Listener),
  (i + d = k)%nat -> (d < rounds)%nat -> last st < 81 ->
  (forall j x, (i <= j < k)%nat -> In x (watch j) -> to_int x < 81) ->
  listen watch rounds i st =
    fold_left on_message (delivered watch i (S d)) st.
Proof.
  intros Hk. induction d as [|d IH]; intros i rounds st Hi Hr Hs Hlow.
  - destruct rounds as [|r]; [lia|]. cbn [listen].
    apply Z.ltb_lt in Hs. rewrite Hs.
    replace i with k by lia.
    rewrite listen_done.
    + unfold delivered. cbn [seq flat_map]. rewrite app_nil_r. reflexivity.
    + rewrite Hk, batch_last_snoc. vm_compute. discriminate.
  - destruct rounds as [|r]; [lia|]. cbn [listen].
    pose proof Hs as Hs'. apply Z.ltb_lt in Hs'. rewrite Hs'.
    rewrite delivered_S, fold_left_app.
    apply IH.
    + lia.
    + lia.
    + apply batch_last; [exact Hs|].
      intros x Hx. apply (Hlow i x); [lia | exact Hx].
    + intros j x Hj Hx. apply (Hlow j x); [lia | exact Hx].
Qed.

Lemma sum_app (a b : list Z) : sum (a ++ b) = sum a + sum b.
Proof.
  unfold sum. induction a as [|x a IH]; cbn [app fold_right].
  - reflexivity.
  - rewrite IH. ring.
Qed.

Lemma sum_nonneg (l : list Z) : Forall (fun x => 0 <= x) l -> 0 <= sum l.
Proof.
  unfold sum. induction 1 as [|x l Hx Hl IH]; cbn [fold_right]; lia.
Qed.

Lemma sum_incl_le (l : list Z) : forall (m : list Z),
  NoDup l -> incl l m -> Forall (fun x => 0 <= x) m -> sum l <= sum m.
Proof.
  induction l as [|a l IH]; intros m Hn Hi Hm.
  - apply sum_nonneg. exact Hm.
  - inversion Hn as [|a' l' Ha Hn']; subst.
    destruct (in_split a m (Hi a (or_introl eq_refl))) as [m1 [m2 ->]].
    assert (sum l <= sum (m1 ++ m2)) as H.
    { apply IH.
      - exact Hn'.
      - intros x Hx. pose proof (Hi x (or_intror Hx)) as H.
        apply in_app_or in H. apply in_or_app.
        destruct H as [H | [H | H]].
        + left. exact H.
        + subst x. contradiction.
        + right. exact H.
      - apply Forall_app in Hm. destruct Hm as [H1 H2].
        inversion H2; subst. apply Forall_app. split; assumption. }
    rewrite sum_app in *. unfold sum in *. cbn [fold_right].
    fold (sum l) in *. lia.
Qed.

(** X15.  Whatever the watch hands over, the listener adds each distinct
    payload once: when the loop ends it has made some number of complete
    polls, at most 200 and fewer only behind a payload of 81 or more,
    [received] holds exactly the payloads of these polls without
    repetition, and [result] is their sum in [unsigned] arithmetic. *)
Theorem listener_adds_each_payload_once (watch : nat -> list Z)
    (Hunsigned : forall k x, In x (watch k) -> 0 <= x < 2 ^ 32) :
  exists polls, (polls <= 200)%nat /\
    NoDup (received (listener watch)) /\
    (forall x, In x (received (listener watch)) <->
               In x (delivered watch 0 polls)) /\
    result (listener watch) = sum (received (listener watch)) mod 2 ^ 32 /\
    ((polls < 200)%nat -> 81 <= last (listener watch)).
Proof.
  unfold listener.
  destruct (listen_polls watch 200 0 start) as [k [Hk [He Hl]]].
  exists k. split; [exact Hk|].
  assert (Forall (fun x => 0 <= x < 2 ^ 32) (delivered watch 0 k)) as Hf.
  { apply Forall_forall. intros x Hx. apply delivered_In in Hx.
    destruct Hx as [j [_ Hx]]. exact (Hunsigned j x Hx). }
  destruct (on_batch_inv (delivered watch 0 k) start Hf start_inv)
    as [[Hn [Hr _]] Hm].
  rewrite <- He in Hn, Hr, Hm.
  split; [exact Hn|]. split; [|split; [exact Hr | exact Hl]].
  intros x. rewrite (Hm x). cbn [received start In]. split.
  - intros [H | []]. exact H.
  - intros H. left. exact H.
Qed.

(** X16.  The number the test requires, 165, depends on the order of
    arrival: when the watch hands over odd squares only and 81 is first
    seen as the last message of the poll number [k], the loop ends behind
    that poll, and [result] is 165 exactly when each of the five payloads
    has been handed over by then. *)
Theorem listener_result_165 (watch : nat -> list Z) (k : nat)
    (before : list Z)
    (Hpolls : (k < 200)%nat)
    (Hodd : forall j x, (j <= k)%nat -> In x (watch j) -> In x odd_squares)
    (Hfirst : forall j, (j < k)%nat -> ~ In 81 (watch j))
    (Hlast : watch k = before ++ [81]) :
  last (listener watch) = 81 /\
  (result (listener watch) = 165 <->
   forall x, In x odd_squares -> In x (delivered watch 0 (S k))).
Proof.
  assert (listener watch =
          fold_left on_message (delivered watch 0 (S k)) start) as He.
  { unfold listener.
    apply (listen_stops_at watch k before Hlast k 0%nat 200%nat start).
    - reflexivity.
    - exact Hpolls.
    - reflexivity.
    - intros j x Hj Hx. pose proof (Hodd j x ltac:(lia) Hx) as H.
      pose proof (Hfirst j ltac:(lia)) as H81.
      cbn [odd_squares In] in H.
      destruct H as [<- | [<- | [<- | [<- | [<- | []]]]]];
        try (vm_compute; reflexivity).
      contradiction. }
  assert (forall x, In x (delivered watch 0 (S k)) -> In x odd_squares)
    as Hd.
  { intros x Hx. apply delivered_In in Hx. destruct Hx as [j [Hj Hx]].
    apply (Hodd j x); [lia | exact Hx]. }
  assert (forall x, In x odd_squares -> 0 <= x < 2 ^ 32) as Hrange.
  { intros x Hx. cbn [odd_squares In] in Hx.
    destruct Hx as [<- | [<- | [<- | [<- | [<- | []]]]]]; lia. }
  assert (Forall (fun x => 0 <= x < 2 ^ 32) (delivered watch 0 (S k)))
    as Hf.
  { apply Forall_forall. intros x Hx. apply Hrange, Hd, Hx. }
  destruct (on_batch_inv (delivered watch 0 (S k)) start Hf start_inv)
    as [[Hn [Hr Hrf]] Hm].
  rewrite <- He in Hn, Hr, Hrf, Hm.
  assert (forall x, In x (received (listener watch)) <->
                    In x (delivered watch 0 (S k))) as Hm'.
  { intros x. rewrite (Hm x). cbn [received start In]. split.
    - intros [H | []]. exact H.
    - intros H. left. exact H. }
  assert (sum (received (listener watch)) <= 165) as Hle.
  { apply (sum_incl_le _ odd_squares Hn).
    - intros x Hx. apply Hd. exact (proj1 (Hm' x) Hx).
    - repeat constructor; lia. }
  assert (0 <= sum (received (listener watch))) as Hge.
  { apply sum_nonneg. apply Forall_forall. intros x Hx.
    rewrite Forall_forall in Hrf. apply (Hrf x) in Hx. lia. }
  split.
  - rewrite He. unfold delivered.
    rewrite seq_S, flat_map_app. cbn [flat_map]. rewrite app_nil_r.
    cbn [Nat.add]. rewrite Hlast, app_assoc, batch_last_snoc.
    reflexivity.
  - rewrite Hr, Z.mod_small by lia. split.
    + intros Hs x Hx.
      destruct (in_dec Z.eq_dec x (received (listener watch))) as [H | H].
      * exact (proj1 (Hm' x) H).
      * exfalso.
        assert (sum (received (listener watch)) <=
                sum (remove Z.eq_dec x odd_squares)) as Hlt.
        { apply (sum_incl_le _ _ Hn).
          - intros y Hy. apply in_in_remove.
            + intros ->. contradiction.
            + apply Hd. exact (proj1 (Hm' y) Hy).
          - apply Forall_forall. intros y Hy. apply in_remove in Hy.
            destruct Hy as [Hy _]. apply Hrange in Hy. lia. }
        assert (sum (remove Z.eq_dec x odd_squares) < 165) as Hx'.
        { cbn [odd_squares In] in Hx.
          destruct Hx as [<- | [<- | [<- | [<- | [<- | []]]]]];
            vm_compute; reflexivity. }
        lia.
    + intros Hall.
      assert (sum odd_squares <= sum (received (listener watch))) as H.
      { apply sum_incl_le.
        - repeat constructor; cbn [In]; lia.
        - intros x Hx. exact (proj2 (Hm' x) (Hall x Hx)).
        - apply Forall_forall. intros x Hx.
          rewrite Forall_forall in Hrf. apply (Hrf x) in Hx. lia. }
      change (sum odd_squares) with 165 in H. lia.
Qed.

End ListenerProperties.


(** * The listeners of the forwarding tests *)

Lemma forwarding_batch (l : list Z) : forall (r : Z),
  fold_left WhisperForwardingTest.on_message l r = last l r.
Proof.
  induction l as [|p l IH]; intros r.
  - reflexivity.
  - cbn [fold_left]. rewrite IH. unfold WhisperForwardingTest.on_message.
    destruct l as [|q l]; [reflexivity|]. cbn [last].
    clear IH. revert q. induction l as [|q' l IH]; intros q.
    + reflexivity.
    + apply IH.
Qed.

Lemma forwarding_done (watch : nat -> list Z) (rounds i : nat) (r : Z) :
  r <> 0 -> WhisperForwardingTest.listen watch rounds i r = r.
Proof.
  intros H. destruct rounds as [|n]; [reflexivity|].
  cbn [WhisperForwardingTest.listen].
  apply Z.eqb_neq in H. rewrite H. reflexivity.
Qed.

Lemma forwarding_listen (watch : nat -> list Z) (rounds : nat) :
  forall (i : nat),
  (WhisperForwardingTest.listen watch rounds i 0 = 0 /\
   forall j, (i <= j < i + rounds)%nat -> last (watch j) 0 = 0) \/
  (exists k, (i <= k < i + rounds)%nat /\
     WhisperForwardingTest.listen watch rounds i 0 = last (watch k) 0 /\
     last (watch k) 0 <> 0 /\
     forall j, (i <= j < k)%nat -> last (watch j) 0 = 0).
Proof.
  induction rounds as [|r IH]; intros i.
  - left. split; [reflexivity | intros j Hj; lia].
  - cbn [WhisperForwardingTest.listen Z.eqb].
    rewrite forwarding_batch.
    destruct (Z.eq_dec (last (watch i) 0) 0) as [E | E].
    + rewrite E. destruct (IH (S i)) as [[H0 Hall] | [k [Hk [Hr [Hn Hb]]]]].
      * left. split; [exact H0|]. intros j Hj.
        destruct (Nat.eq_dec j i) as [-> | Hne]; [exact E|].
        apply Hall. lia.
      * right. exists k. split; [lia|]. split; [exact Hr|].
        split; [exact Hn|]. intros j Hj.
        destruct (Nat.eq_dec j i) as [-> | Hne]; [exact E|].
        apply Hb. lia.
    + right. exists i. split; [lia|]. split.
      * apply forwarding_done. exact E.
      * split; [exact E|]. intros j Hj. lia.
Qed.

(** X17.  The listeners of the two forwarding tests end with the last
    payload of the first poll that leaves [result] other than zero; when
    none of the 200 polls does, [result] is still zero.  A poll leaves
    zero when it is empty or ends with the payload zero. *)
Theorem forwarding_listener_result (watch : nat -> list Z) :
  (WhisperForwardingTest.listener watch = 0 /\
   forall j, (j < 200)%nat -> last (watch j) 0 = 0) \/
  (exists k, (k < 200)%nat /\
     WhisperForwardingTest.listener watch = last (watch k) 0 /\
     WhisperForwardingTest.listener watch <> 0 /\
     forall j, (j < k)%nat -> last (watch j) 0 = 0).
Proof.
  unfold WhisperForwardingTest.listener.
  destruct (forwarding_listen watch 200 0)
    as [[H0 Hall] | [k [Hk [Hr [Hn Hb]]]]].
  - left. split; [exact H0|]. intros j Hj. apply Hall. lia.
  - right. exists k. split; [lia|]. split; [exact Hr|]. split.
    + rewrite Hr. exact Hn.
    + intros j Hj. apply Hb. lia.
Qed.

(** ** The bench: the properties at concrete inputs *)

Abbreviation bench_sender :=
  (sender Sample.sha3 Sample.recover Sample.RLPStream_out) (only parsing).
Abbreviation bench_safeSender :=
  (safeSender Sample.sha3 Sample.recover Sample.RLPStream_out) (only parsing).
Abbreviation bench_sign :=
  (sign Sample.sha3 Sample.dev_sign Sample.isValid Sample.RLPStream_out)
  (only parsing).
Abbreviation bench_decode :=
  (Transaction_decode Sample.sha3 Sample.recover Sample.isValid
     Sample.RLPStream_out Sample.RLP_open Sample.gasRequired_of)
  (only parsing).

(** [sender] under a hash that sends the public key of the bench key to
    the null address. *)
Abbreviation null_sender :=
  (sender (Sample.sha3_null_at (Sample.toPublic Sample.key))
     Sample.recover Sample.RLPStream_out) (only parsing).

(** The scenario of the specification: with a tampered [s],
    [sender] throws [InvalidSignature] and [safeSender] returns the null
    address after one warning. *)
Example safeSender_of_tampered_signature :
  bench_sender {| self := Sample.tampered_call; trace := [] |}
  = (inl (exception InvalidSignature),
     {| self := Sample.tampered_call;
        trace := [EvRecover (m_vrs Sample.tampered_call)
                    (Transaction_sha3 Sample.sha3 Sample.RLPStream_out
                       Sample.tampered_call WithoutSignature)] |})
  /\ bench_safeSender {| self := Sample.tampered_call; trace := [] |}
     = (inr ZeroAddress,
        {| self := Sample.tampered_call;
           trace := [EvRecover (m_vrs Sample.tampered_call)
                       (Transaction_sha3 Sample.sha3 Sample.RLPStream_out
                          Sample.tampered_call WithoutSignature);
                     EvWarn] |}).
Proof.
  split; vm_compute; reflexivity.
Qed.

(** The null transaction leaves a stream that already holds an item as it is. *)
Lemma streamRLP_null_witness :
  streamRLP Transaction_null (append_int 5 RLPStream_new) WithSignature
  = append_int 5 RLPStream_new.
Proof.
  apply streamRLP_null_writes_nothing. reflexivity.
Defined.

(** The six items of the bench call, and the nine with its signature. *)
Lemma streamRLP_layout_witness :
  streamRLP Sample.call RLPStream_new WithoutSignature
  = {| m_out := [RLPList [RLPData [x07]; RLPData [x32]; RLPData [x75; x30];
                          RLPData (toBigEndian 20 0xcafe);
                          RLPData [x03; xe8]; RLPData [x00; xff]]];
       m_listStack := [] |}
  /\ length (unsigned_items Sample.call ++ signature_items Sample.call) = 9%nat.
Proof.
  destruct (streamRLP_layout Sample.sha3 Sample.dev_sign Sample.isValid
              Sample.RLPStream_out Sample.call RLPStream_new Sample.key []
              ltac:(discriminate)) as (H1 & _ & _ & H4 & _).
  split; [exact H1|exact H4].
Defined.



(** The signed bench call decodes to a call to the address 0xcafe. *)
Lemma decoded_type_and_recipient_witness :
  m_type (as_received Sample.signed_call) = MessageCall
  /\ RLPReader.toHash 20 (Some (RLPData (toBigEndian 20 0xcafe)))
     = inr (m_receiveAddress (as_received Sample.signed_call)).
Proof.
  exact (decoded_type_and_recipient Sample.sha3 Sample.recover Sample.isValid
           Sample.RLPStream_out Sample.RLP_open Sample.gasRequired_of
           (Sample.wire Sample.signed_call)
           (Some (RLPList (unsigned_items Sample.signed_call
                           ++ signature_items Sample.signed_call)))
           CheckTransaction.None [] [] (as_received Sample.signed_call)
           ltac:(vm_compute; reflexivity) ltac:(vm_compute; reflexivity)).
Defined.

(** The bench creation offers 100 gas where 21072 are required: refused
    under [Cheap], with both numbers, after its signature passed; accepted
    under [None]. *)
Lemma payment_check_after_signature_witness :
  bench_decode (Sample.wire Sample.signed_creation) CheckTransaction.Cheap []
  = (inl {| what := OutOfGasIntrinsic; errinfo_comment := None;
            errinfo_name := None; BadFieldError := None;
            RequirementError := Some (21072, 100) |}, [])
  /\ Sample.isValid (m_vrs Sample.signed_creation) = true
  /\ bench_decode (Sample.wire Sample.signed_creation) CheckTransaction.None []
     = (inr (as_received Sample.signed_creation), []).
Proof.
  pose (rlp := Some (RLPList (unsigned_items Sample.signed_creation
                              ++ signature_items Sample.signed_creation))).
  assert (Ho : Sample.RLP_open (Sample.wire Sample.signed_creation) = inr rlp)
    by (vm_compute; reflexivity).
  pose proof (payment_check_after_signature Sample.sha3 Sample.recover
                Sample.isValid Sample.RLPStream_out Sample.RLP_open
                Sample.gasRequired_of _ rlp CheckTransaction.Cheap [] Ho) as Hc.
  pose proof (payment_check_after_signature Sample.sha3 Sample.recover
                Sample.isValid Sample.RLPStream_out Sample.RLP_open
                Sample.gasRequired_of _ rlp CheckTransaction.None [] Ho) as Hn.
  assert (Ec : try_block Sample.sha3 Sample.recover Sample.isValid
                 Sample.RLPStream_out rlp CheckTransaction.Cheap []
               = (inr (as_received Sample.signed_creation), []))
    by (vm_compute; reflexivity).
  assert (En : try_block Sample.sha3 Sample.recover Sample.isValid
                 Sample.RLPStream_out rlp CheckTransaction.None []
               = (inr (as_received Sample.signed_creation), []))
    by (vm_compute; reflexivity).
  rewrite Ec in Hc. rewrite En in Hn. cbv zeta in Hc, Hn.
  destruct Hc as (Hv & _ & Hc). destruct Hn as (_ & _ & Hn).
  split; [exact Hc|]. split; [exact (Hv eq_refl)|exact Hn].
Defined.

(** The wire value 1 is stored as 230, and [Cheap] refuses the triple. *)
Lemma signature_v_normalized_witness :
  SignatureStruct.v (m_vrs Sample.low_v_decoded) = (1 - 27) mod 256
  /\ bench_decode (Sample.encode Sample.low_v) CheckTransaction.Cheap []
     = (inl (handler 8 (exception InvalidSignature)), []).
Proof.
  destruct (signature_v_normalized Sample.sha3 Sample.recover Sample.isValid
              Sample.RLPStream_out Sample.RLP_open Sample.gasRequired_of
              (Sample.encode Sample.low_v) (Some Sample.low_v)
              CheckTransaction.Cheap [] Sample.low_v_decoded
              ltac:(vm_compute; reflexivity) ltac:(vm_compute; reflexivity))
    as ((v_wire & Hw & _ & Hv & _) & _ & Hinvalid).
  split.
  - assert (E : v_wire = 1) by (vm_compute in Hw; congruence).
    rewrite E in Hv. exact Hv.
  - apply Hinvalid; reflexivity.
Defined.


(** The bench call, signed, written and decoded under [Everything], has
    the address of the bench key as its sender. *)
Lemma sign_encode_decode_sender_witness :
  exists (t' : Transaction) (tr' : list Event),
    bench_decode
      (Transaction_rlp Sample.RLPStream_out
         (self (snd (bench_sign Sample.key
                       {| self := Sample.call; trace := [] |})))
         WithSignature)
      CheckTransaction.Everything []
    = (inr t', tr')
    /\ forall tr'' : list Event,
         fst (bench_sender {| self := t'; trace := tr'' |})
         = inr (toAddress Sample.sha3 (Sample.toPublic Sample.key)).
Proof.
  apply (sign_encode_decode_sender Sample.sha3 Sample.recover Sample.dev_sign
           Sample.isValid Sample.RLPStream_out Sample.RLP_open
           Sample.gasRequired_of Sample.toPublic Sample.call Sample.key
           CheckTransaction.Everything [] []).
  - discriminate.
  - constructor; vm_compute; split; (reflexivity || discriminate).
  - vm_compute; reflexivity.
  - constructor; vm_compute; split; (reflexivity || discriminate).
  - vm_compute; reflexivity.
  - vm_compute; discriminate.
  - vm_compute; reflexivity.
  - right. vm_compute. discriminate.
Defined.

(** The contract on the hash is what the memoization rests on: under a
    hash that sends one public key to the null address, the first
    [sender] of a transaction signed with that key returns the null
    address, and the second call recovers the key once more. *)
Lemma sender_without_hash_contract :
  m_sender (self Sample.w0) = 0
  /\ fst (null_sender Sample.w0) = inr ZeroAddress
  /\ length (trace (snd (null_sender Sample.w0))) = 1%nat
  /\ fst (null_sender (snd (null_sender Sample.w0)))
     = inr ZeroAddress
  /\ length (trace (snd (null_sender
                           (snd (null_sender Sample.w0))))) = 2%nat.
Proof.
  repeat split; vm_compute; reflexivity.
Qed.

(** C3, the claim as it stands, fails at the null transaction: signed and
    written with its signature it is no bytes at all, and decoding no
    bytes throws [BadRLP].  It also fails where the payment check is on
    and the gas does not suffice: the signed bench creation is refused
    with [OutOfGasIntrinsic]. *)
Lemma round_trip_refused :
  Transaction_rlp Sample.RLPStream_out
    (self (snd (bench_sign Sample.key
                  {| self := Transaction_null; trace := [] |})))
    WithSignature = []
  /\ bench_decode
       (Transaction_rlp Sample.RLPStream_out
          (self (snd (bench_sign Sample.key
                        {| self := Transaction_null; trace := [] |})))
          WithSignature)
       CheckTransaction.None []
     = (inl (handler 0 (BadRLP_because "transaction RLP must be a list")), [])
  /\ bench_decode
       (Transaction_rlp Sample.RLPStream_out
          (self (snd (bench_sign Sample.key
                        {| self := Sample.creation; trace := [] |})))
          WithSignature)
       CheckTransaction.Cheap []
     = (inl {| what := OutOfGasIntrinsic; errinfo_comment := None;
               errinfo_name := None; BadFieldError := None;
               RequirementError := Some (21072, 100) |}, []).
Proof.
  repeat split; vm_compute; reflexivity.
Qed.

(** C8, the claim as it stands, fails below 27: the wire value 1 is
    stored as 230, not as 1 - 27. *)
Lemma low_v_wraps_around :
  bench_decode (Sample.encode Sample.low_v) CheckTransaction.None []
  = (inr Sample.low_v_decoded, [])
  /\ RLPReader.toInt 1 (Some Sample.low_v).[6] = inr 1
  /\ SignatureStruct.v (m_vrs Sample.low_v_decoded) = 230
  /\ SignatureStruct.v (m_vrs Sample.low_v_decoded) <> 1 - 27.
Proof.
  repeat split; try (vm_compute; reflexivity). vm_compute. discriminate.
Qed.

(** Signing again with another key leaves the address that an earlier
    [sender] cached. *)
Lemma sign_keeps_cached_sender_witness :
  bench_sender
    (snd (bench_sign Sample.key
            {| self := set_m_sender 99 Sample.call; trace := [] |}))
  = (inr 99,
     snd (bench_sign Sample.key
            {| self := set_m_sender 99 Sample.call; trace := [] |})).
Proof.
  apply (sign_keeps_cached_sender Sample.sha3 Sample.recover Sample.dev_sign
           Sample.isValid Sample.RLPStream_out Sample.key
           {| self := set_m_sender 99 Sample.call; trace := [] |}).
  vm_compute. discriminate.
Defined.

(** The list whose first field is a list is refused at field 0, which
    does not convert; the underpaid creation is refused without a field
    number; two bytes that are two items are refused by the reader. *)
Lemma failing_field_reported_witness :
  (exists (e : Exception) (tr' : list Event),
     bench_decode (Sample.encode Sample.crooked) CheckTransaction.None []
     = (inl e, tr')
     /\ BadFieldError e = Some 0%nat
     /\ field_converts (Some Sample.crooked) 0 = false)
  /\ (exists (e : Exception) (tr' : list Event),
        bench_decode (Sample.wire Sample.signed_creation)
          CheckTransaction.Cheap []
        = (inl e, tr')
        /\ BadFieldError e = None
        /\ what e = OutOfGasIntrinsic)
  /\ bench_decode [x07; x07] CheckTransaction.Everything [EvWarn]
     = (inl (exception BadRLP), [EvWarn]).
Proof.
  split; [|split].
  - pose (r := bench_decode (Sample.encode Sample.crooked)
                 CheckTransaction.None []).
    pose (e := match fst r with
               | inl e => e
               | inr _ => exception BadRLP
               end).
    assert (E : bench_decode (Sample.encode Sample.crooked)
                  CheckTransaction.None [] = (inl e, snd r))
      by (vm_compute; reflexivity).
    assert (Ef : BadFieldError e = Some 0%nat) by (vm_compute; reflexivity).
    exists e, (snd r). split; [exact E|]. split; [exact Ef|].
    pose proof (failing_field_reported Sample.sha3 Sample.recover
                  Sample.isValid Sample.RLPStream_out Sample.RLP_open
                  Sample.gasRequired_of (Sample.encode Sample.crooked)
                  CheckTransaction.None [] (snd r) e E) as H.
    assert (Ho : Sample.RLP_open (Sample.encode Sample.crooked)
                 = inr (Some Sample.crooked)) by (vm_compute; reflexivity).
    rewrite Ho, Ef in H. destruct H as (_ & _ & _ & H & _).
    apply H; vm_compute; reflexivity.
  - pose (r := bench_decode (Sample.wire Sample.signed_creation)
                 CheckTransaction.Cheap []).
    pose (e := match fst r with
               | inl e => e
               | inr _ => exception BadRLP
               end).
    assert (E : bench_decode (Sample.wire Sample.signed_creation)
                  CheckTransaction.Cheap [] = (inl e, snd r))
      by (vm_compute; reflexivity).
    assert (Ef : BadFieldError e = None) by (vm_compute; reflexivity).
    exists e, (snd r). split; [exact E|]. split; [exact Ef|].
    pose proof (failing_field_reported Sample.sha3 Sample.recover
                  Sample.isValid Sample.RLPStream_out Sample.RLP_open
                  Sample.gasRequired_of (Sample.wire Sample.signed_creation)
                  CheckTransaction.Cheap [] (snd r) e E) as H.
    assert (Ho : Sample.RLP_open (Sample.wire Sample.signed_creation)
                 = inr (Some (RLPList
                                (unsigned_items Sample.signed_creation
                                 ++ signature_items Sample.signed_creation))))
      by (vm_compute; reflexivity).
    rewrite Ho, Ef in H. destruct H as (H & _). exact H.
  - pose (r := bench_decode [x07; x07] CheckTransaction.Everything [EvWarn]).
    pose (e := match fst r with
               | inl e => e
               | inr _ => exception InvalidSignature
               end).
    assert (E : bench_decode [x07; x07] CheckTransaction.Everything [EvWarn]
                = (inl e, snd r))
      by (vm_compute; reflexivity).
    pose proof (failing_field_reported Sample.sha3 Sample.recover
                  Sample.isValid Sample.RLPStream_out Sample.RLP_open
                  Sample.gasRequired_of [x07; x07]
                  CheckTransaction.Everything [EvWarn] (snd r) e E) as H.
    assert (Ho : Sample.RLP_open [x07; x07] = inl BadRLP)
      by (vm_compute; reflexivity).
    rewrite Ho in H. destruct H as (He & Htr).
    rewrite E, He, Htr. reflexivity.
Defined.

(** Under [Cheap] the signed bench call is decoded without a recovery and
    without a sender. *)
Lemma recovery_only_under_Everything_witness :
  snd (bench_decode (Sample.wire Sample.signed_call)
         CheckTransaction.Cheap []) = []
  /\ forall t : Transaction,
       fst (bench_decode (Sample.wire Sample.signed_call)
              CheckTransaction.Cheap []) = inr t ->
       m_sender t = 0.
Proof.
  apply (recovery_only_under_Everything Sample.sha3 Sample.recover
           Sample.isValid Sample.RLPStream_out Sample.RLP_open
           Sample.gasRequired_of (Sample.wire Sample.signed_call)
           (Some (RLPList (unsigned_items Sample.signed_call
                           ++ signature_items Sample.signed_call)))
           CheckTransaction.Cheap []).
  - vm_compute. reflexivity.
  - reflexivity.
Defined.

(** Under [Everything] the signed bench call comes back with the address
    of the bench key as its sender, after one recovery. *)
Lemma Everything_leaves_sender_witness :
  exists (t : Transaction) (tr' : list Event),
    bench_decode (Sample.wire Sample.signed_call)
      CheckTransaction.Everything [] = (inr t, tr')
    /\ length tr' = 1%nat
    /\ m_sender t = toAddress Sample.sha3 (Sample.toPublic Sample.key)
    /\ fst (bench_safeSender {| self := t; trace := [] |})
       = inr (m_sender t).
Proof.
  pose (r := bench_decode (Sample.wire Sample.signed_call)
               CheckTransaction.Everything []).
  pose (t := match fst r with
             | inr t => t
             | inl _ => Transaction_null
             end).
  assert (E : bench_decode (Sample.wire Sample.signed_call)
                CheckTransaction.Everything [] = (inr t, snd r))
    by (vm_compute; reflexivity).
  destruct (Everything_leaves_sender Sample.sha3 Sample.recover
              Sample.isValid Sample.RLPStream_out Sample.RLP_open
              Sample.gasRequired_of (Sample.wire Sample.signed_call)
              (Some (RLPList (unsigned_items Sample.signed_call
                              ++ signature_items Sample.signed_call)))
              [] (snd r) t ltac:(vm_compute; reflexivity) E)
    as (Htr & _ & Hs & Hq).
  exists t, (snd r). split; [exact E|]. split.
  - rewrite Htr. reflexivity.
  - split.
    + rewrite Hs. vm_compute. reflexivity.
    + exact (proj2 (Hq [])).
Defined.

(** The signed bench call is accepted under [Everything], and so under
    [Cheap]. *)
Lemma checking_modes_nested_witness :
  exists t1 : Transaction,
    bench_decode (Sample.wire Sample.signed_call) CheckTransaction.Cheap []
    = (inr t1, [])
    /\ m_nonce t1 = 7.
Proof.
  pose (r := bench_decode (Sample.wire Sample.signed_call)
               CheckTransaction.Everything []).
  pose (t := match fst r with
             | inr t => t
             | inl _ => Transaction_null
             end).
  assert (E : bench_decode (Sample.wire Sample.signed_call)
                CheckTransaction.Everything [] = (inr t, snd r))
    by (vm_compute; reflexivity).
  destruct (checking_modes_nested Sample.sha3 Sample.recover
              Sample.isValid Sample.RLPStream_out Sample.RLP_open
              Sample.gasRequired_of (Sample.wire Sample.signed_call)
              (Some (RLPList (unsigned_items Sample.signed_call
                              ++ signature_items Sample.signed_call)))
              [] (snd r) t ltac:(vm_compute; reflexivity)) as (H & _).
  destruct (H E) as (t1 & E1 & Hm).
  exists t1. split; [exact E1|].
  destruct Hm as (_ & Hn & _). rewrite Hn. vm_compute. reflexivity.
Defined.

(** The creation decoded without checks has a type, the null recipient
    and a signature of the widths of its members. *)
Lemma decoded_is_well_formed_witness :
  m_type (as_received Sample.signed_creation) <> NullTransaction
  /\ Transaction_wf (as_received Sample.signed_creation)
  /\ m_receiveAddress (as_received Sample.signed_creation) = ZeroAddress.
Proof.
  destruct (decoded_is_well_formed Sample.sha3 Sample.recover
              Sample.isValid Sample.RLPStream_out Sample.RLP_open
              Sample.gasRequired_of (Sample.wire Sample.signed_creation)
              (Some (RLPList (unsigned_items Sample.signed_creation
                              ++ signature_items Sample.signed_creation)))
              CheckTransaction.None [] []
              (as_received Sample.signed_creation)
              ltac:(vm_compute; reflexivity) ltac:(vm_compute; reflexivity))
    as (H1 & H2 & H3 & _).
  split; [exact H1|]. split; [exact H2|]. apply H3. reflexivity.
Defined.

(** The refusal of the list with a list as its first field is of the
    class [BadRLP]. *)
Lemma refusal_classified_witness :
  exists (e : Exception) (tr' : list Event),
    bench_decode (Sample.encode Sample.crooked) CheckTransaction.Everything []
    = (inl e, tr')
    /\ toTransactionException e = TransactionException.BadRLP.
Proof.
  pose (r := bench_decode (Sample.encode Sample.crooked)
               CheckTransaction.Everything []).
  pose (e := match fst r with
             | inl e => e
             | inr _ => exception InvalidSignature
             end).
  assert (E : bench_decode (Sample.encode Sample.crooked)
                CheckTransaction.Everything [] = (inl e, snd r))
    by (vm_compute; reflexivity).
  exists e, (snd r). split; [exact E|].
  destruct (refusal_classified Sample.sha3 Sample.recover
              Sample.isValid Sample.RLPStream_out Sample.RLP_open
              Sample.gasRequired_of (Sample.encode Sample.crooked)
              CheckTransaction.Everything [] (snd r) e E) as (_ & H).
  assert (Ho : Sample.RLP_open (Sample.encode Sample.crooked)
               = inr (Some Sample.crooked)) by (vm_compute; reflexivity).
  rewrite Ho in H.
  destruct H as [(H & _) | [(_ & H & _) | (_ & H & _)]].
  - exact H.
  - vm_compute in H. discriminate H.
  - vm_compute in H. discriminate H.
Defined.

(** The signed bench call, decoded and written again, is the list that
    was received. *)
Lemma decode_streamRLP_round_trip_witness :
  exists (t : Transaction) (tr' : list Event),
    bench_decode (Sample.wire Sample.signed_call)
      CheckTransaction.Everything [] = (inr t, tr')
    /\ Transaction_rlp Sample.RLPStream_out t WithSignature
       = Sample.wire Sample.signed_call.
Proof.
  pose (r := bench_decode (Sample.wire Sample.signed_call)
               CheckTransaction.Everything []).
  pose (t := match fst r with
             | inr t => t
             | inl _ => Transaction_null
             end).
  assert (E : bench_decode (Sample.wire Sample.signed_call)
                CheckTransaction.Everything [] = (inr t, snd r))
    by (vm_compute; reflexivity).
  exists t, (snd r). split; [exact E|].
  unfold Transaction_rlp, Sample.wire.
  rewrite (decode_streamRLP_round_trip Sample.sha3 Sample.recover
             Sample.isValid Sample.RLPStream_out Sample.RLP_open
             Sample.gasRequired_of (Sample.wire Sample.signed_call)
             (unsigned_items Sample.signed_call
              ++ signature_items Sample.signed_call)
             CheckTransaction.Everything [] (snd r) t 27 RLPStream_new
             ltac:(vm_compute; reflexivity) E
             ltac:(vm_compute; discriminate)
             ltac:(vm_compute; reflexivity)
             ltac:(vm_compute; discriminate)).
  reflexivity.
Defined.

(** A watch that hands over 81 at once: one poll, one payload. *)
Lemma listener_adds_each_payload_once_witness :
  exists polls : nat, (polls <= 200)%nat
    /\ NoDup (WhisperTopicTest.received
                (WhisperTopicTest.listener (fun _ => [81])))
    /\ WhisperTopicTest.result (WhisperTopicTest.listener (fun _ => [81]))
       = WhisperTopicTest.sum
           (WhisperTopicTest.received
              (WhisperTopicTest.listener (fun _ => [81]))) mod 2 ^ 32.
Proof.
  destruct (listener_adds_each_payload_once (fun _ => [81]))
    as (polls & Hp & Hn & _ & Hr & _).
  - intros k x [<- | []]. split; [discriminate | reflexivity].
  - exists polls. split; [exact Hp|]. split; [exact Hn | exact Hr].
Defined.

(** A payload of a given poll is one of a given list. *)
Ltac payload_of Hx :=
  vm_compute in Hx;
  repeat (destruct Hx as [Hx | Hx];
          [subst;
           match goal with
           | |- In ?a ?l => apply (proj1 (existsb_eqb_In a l)); reflexivity
           end|]);
  contradiction.

(** The odd squares a poll at a time, in the order of the posts: the
    fifth poll ends with 81 and the result is 165; when 49 stays away it
    is not. *)
Lemma listener_result_165_witness :
  WhisperTopicTest.result
    (WhisperTopicTest.listener
       (fun k => nth k [[1]; [9]; [25; 9]; [49]; [81]] [])) = 165
  /\ WhisperTopicTest.result
       (WhisperTopicTest.listener
          (fun k => nth k [[1]; [9]; [25; 9]; []; [81]] [])) <> 165.
Proof.
  split.
  - destruct (listener_result_165
                (fun k => nth k [[1]; [9]; [25; 9]; [49]; [81]] [])
                4%nat []) as (_ & H).
    + apply Nat.ltb_lt. reflexivity.
    + intros j x Hj Hx.
      do 5 (destruct j as [|j]; [payload_of Hx|]).
      exfalso. apply Nat.leb_le in Hj. discriminate Hj.
    + intros j Hj Hx.
      do 4 (destruct j as [|j];
        [vm_compute in Hx;
         repeat (destruct Hx as [Hx | Hx]; [discriminate Hx|]); exact Hx|]).
      apply Nat.ltb_lt in Hj. discriminate Hj.
    + reflexivity.
    + apply H. intros x Hx. vm_compute in Hx. vm_compute.
      destruct Hx as [<- | [<- | [<- | [<- | [<- | []]]]]].
      * left. reflexivity.
      * right. left. reflexivity.
      * right. right. left. reflexivity.
      * do 4 right. left. reflexivity.
      * do 5 right. left. reflexivity.
  - destruct (listener_result_165
                (fun k => nth k [[1]; [9]; [25; 9]; []; [81]] [])
                4%nat []) as (_ & H).
    + apply Nat.ltb_lt. reflexivity.
    + intros j x Hj Hx.
      do 5 (destruct j as [|j]; [payload_of Hx|]).
      exfalso. apply Nat.leb_le in Hj. discriminate Hj.
    + intros j Hj Hx.
      do 4 (destruct j as [|j];
        [vm_compute in Hx;
         repeat (destruct Hx as [Hx | Hx]; [discriminate Hx|]); exact Hx|]).
      apply Nat.ltb_lt in Hj. discriminate Hj.
    + reflexivity.
    + intros E. pose proof (proj1 H E 49
                    (proj1 (existsb_eqb_In 49 WhisperTopicTest.odd_squares)
                       eq_refl)) as H49.
      vm_compute in H49.
      repeat (destruct H49 as [H49 | H49]; [discriminate H49|]).
      exact H49.
Defined.
